(** * GLFW Linux joystick back end (src/linux_joystick.c)

    A shallow embedding of the joystick module: the device table
    [_glfw.linux_js.js], the discovery routine [openJoystickDevice], the
    poller [pollJoystickEvents], the hot-plug reader
    [_glfwPollJoystickEvents] and the initialisation
    [_glfwInitJoysticksLinux], followed by the properties of the module.

    Conventions.
    - C integers are [Z]; a joystick id is a [nat] because it indexes the
      device table.
    - A [string] holds the bytes of a C character buffer; the C string it
      denotes ends at the first NUL byte or at the end of the [string].
    - The operating system is a record of answers, [OS]; the part that a
      call consumes (queued driver events, queued inotify events) is
      updated by the call.
    - Calls that leave the module ([_glfwInputJoystickChange],
      [_glfwInputError], [open], [close], the [_glfw_free] calls of the
      poller) are appended to logs kept in the library state, oldest
      first.
    - [float] values are IEEE-754 binary32 numbers ([SpecFloat], precision
      24, emax 128).
    - A store through a NULL pointer or outside an array has no defined
      behaviour in C. The model does not perform it and sets the flag
      [faulted] of the library state; from then on the state no longer
      describes the program. *)

From Stdlib Require Import ZArith String Ascii List Bool Lia.
From Stdlib Require Import Floats.SpecFloat.
From stdpp Require Import base list strings sorting.

Local Open Scope Z_scope.

(** ** Constants of the headers *)

Module Const.

(** Modelled from the spec: the GLFW and kernel headers (glfw3.h,
    linux/joystick.h, errno.h) are not part of src; the values are those
    of the GLFW 3 API and of the Linux ABI. *)
Definition GLFW_JOYSTICK_1 : nat := 0.
Definition GLFW_JOYSTICK_LAST : nat := 15.
Definition GLFW_RELEASE : Z := 0.
Definition GLFW_PRESS : Z := 1.
Definition GLFW_CONNECTED : Z := 0x00040001.
Definition GLFW_DISCONNECTED : Z := 0x00040002.
Definition GLFW_PLATFORM_ERROR : Z := 0x00010008.
Definition JS_EVENT_BUTTON : Z := 0x01.
Definition JS_EVENT_AXIS : Z := 0x02.
Definition JS_EVENT_INIT : Z := 0x80.
Definition EAGAIN : Z := 11.
Definition ENODEV : Z := 19.

End Const.
Export Const.

(** ** C strings *)

(** The byte a [char*] points at: the terminator once the buffer is
    exhausted. *)
Definition byte_at (s : string) : Z :=
  match s with
  | EmptyString => 0
  | String c _ => Z.of_N (N_of_ascii c)
  end.

(** Modelled from the spec: [_glfw_strcmp] is a macro of internal.h, which
    is not part of src; it is the C library's [strcmp]: the difference of
    the first pair of bytes (as unsigned char) that differ, 0 when both
    strings end together. *)
Fixpoint _glfw_strcmp (a b : string) : Z :=
  match a with
  | EmptyString => 0 - byte_at b
  | String c a' =>
      let x := Z.of_N (N_of_ascii c) in
      if x =? byte_at b then
        if x =? 0 then 0
        else _glfw_strcmp a' (match b with EmptyString => b | String _ b' => b' end)
      else x - byte_at b
  end.

(** [snprintf(path, sizeof(path), "%s/%s", dirname, name)] with
    [char path[20]] and [dirname = "/dev/input"], and its twin
    [snprintf(path, sizeof(path), "/dev/input/%s", name)]: at most 19
    characters are kept. *)
Definition dirname : string := "/dev/input".

Definition snprintf_path (name : string) : string :=
  String.substring 0 19 (dirname ++ "/" ++ name)%string.

(** ** The compiled pattern ^js[0-9]\+$ *)

Definition is_digit (c : ascii) : bool :=
  let n := Z.of_N (N_of_ascii c) in (48 <=? n) && (n <=? 57).

Fixpoint all_digits (s : string) : bool :=
  match s with
  | EmptyString => true
  | String c s' => is_digit c && all_digits s'
  end.

(** [regexec(&_glfw.linux_js.regex, name, 1, &match, 0) == 0]: the whole
    name is "js" followed by one or more decimal digits. *)
Definition regexec_js (name : string) : bool :=
  match name with
  | String "j" (String "s" (String d rest)) => is_digit d && all_digits rest
  | _ => false
  end.

(** ** binary32 arithmetic *)

Definition float : Type := spec_float.

Definition float_zero : float := S754_zero false.

(** Conversion of an [int] to [float]. *)
Definition float_of_int (z : Z) : float := binary_normalize 24 128 z 0 false.

Definition float_div (x y : float) : float := SFdiv 24 128 x y.

Definition float_leb (x y : float) : bool := SFleb x y.

Definition float_ltb (x y : float) : bool := SFltb x y.

(** ** The device table *)

(** Modelled from the spec: the declaration of [_GLFWjoystickLinux]
    (linux_joystick.h) is not part of src; the fields are the ones the
    code reads and writes. A pointer field is [None] when it is NULL. *)
Record _GLFWjoystickLinux : Type := mkJoystick {
  present : bool;
  fd : Z;
  name : option string;
  path : option string;
  axisCount : Z;
  axes : option (list float);
  buttonCount : Z;
  buttons : option (list Z)
}.

(** The slot after [_glfw_memset(js, 0, sizeof(_GLFWjoystickLinux))]. *)
Definition js_zero : _GLFWjoystickLinux :=
  mkJoystick false 0 None None 0 None 0 None.

(** ** Driver events and the operating system *)

(** [struct js_event]: [value] is a signed 16-bit integer, [type] and
    [number] are unsigned bytes (the time stamp is never read). *)
Record js_event : Type := mkEvent {
  e_value : Z;
  e_type : Z;
  e_number : Z
}.

(** Outcome of one [read(js->fd, &e, sizeof(e))]: a record was delivered,
    or the call returned a negative value and set [errno]. *)
Inductive read_result : Type :=
  | ReadEvent (e : js_event)
  | ReadError (errno : Z).

(** One [struct inotify_event] of the buffer the inotify descriptor
    delivers. [ie_len] is the field [len]. [ie_name] is the C string at
    [e->name], as [regexec] reads it: the file name when [len] is positive;
    when [len] is 0 the record carries no name, and these are the bytes
    that follow the record in the buffer (the next record, or what an
    earlier read left there). *)
Record inotify_event : Type := mkInotify {
  ie_len : Z;
  ie_name : string
}.

Record OS : Type := mkOS {
  (** [open(path, O_RDONLY | O_NONBLOCK)]: a descriptor, or -1 *)
  os_open : string -> Z;
  (** the value [ioctl(fd, JSIOCGVERSION, &version)] leaves in [version] *)
  os_version : Z -> Z;
  (** [ioctl(fd, JSIOCGNAME(sizeof(name)), name)]: [None] when negative *)
  os_name : Z -> option string;
  (** the value [ioctl(fd, JSIOCGAXES, &axisCount)] leaves in the [char] *)
  os_axes : Z -> Z;
  (** the value [ioctl(fd, JSIOCGBUTTONS, &buttonCount)] leaves in the [char] *)
  os_buttons : Z -> Z;
  (** per descriptor, the outcomes of the coming reads; once they are used
      up the non-blocking read fails with [EAGAIN] *)
  os_events : Z -> list read_result;
  (** the inotify events the next read of the inotify descriptor returns
      (none when that read returns nothing or fails) *)
  os_inotify : list inotify_event;
  (** [inotify_init1(IN_NONBLOCK | IN_CLOEXEC)] *)
  os_inotify_init1 : Z;
  (** [inotify_add_watch(inotify, dirname, IN_CREATE | IN_ATTRIB)] *)
  os_inotify_add_watch : Z;
  (** [regcomp(&regex, "^js[0-9]\\+$", 0)] *)
  os_regcomp : Z;
  (** [opendir(dirname)] and the names [readdir] then yields; [None] when
      the directory cannot be opened *)
  os_opendir : option (list string)
}.

(** Calls on descriptors, as logged. *)
Inductive fd_call : Type :=
  | Open (path : string) (result : Z)
  | Close (fd : Z).

(** Calls that release a resource: [close], [_glfw_free] of one of the
    four pointers of a slot, [regfree] and [inotify_rm_watch]. *)
Inductive cleanup_call : Type :=
  | CloseFd (d : Z)
  | FreeAxes (jid : nat)
  | FreeButtons (jid : nat)
  | FreeName (jid : nat)
  | FreePath (jid : nat)
  | RegFree
  | InotifyRmWatch (inotify_fd watch_id : Z).

(** The library state [_glfw] as far as this module touches it, with the
    logs of the calls leaving the module and the operating system.
    [released] logs the [_glfw_free] calls of the poller; [faulted] is set
    once a store with no defined behaviour has been attempted. *)
Record _GLFWlibrary : Type := mkLibrary {
  js : list _GLFWjoystickLinux;
  inotify : Z;
  watch : Z;
  joystick_changes : list (nat * Z);
  input_errors : list (Z * string);
  fd_calls : list fd_call;
  os : OS;
  released : list cleanup_call;
  faulted : bool
}.

Definition set_js (tbl : list _GLFWjoystickLinux) (g : _GLFWlibrary) : _GLFWlibrary :=
  mkLibrary tbl (inotify g) (watch g) (joystick_changes g) (input_errors g)
            (fd_calls g) (os g) (released g) (faulted g).

Definition set_inotify (v : Z) (g : _GLFWlibrary) : _GLFWlibrary :=
  mkLibrary (js g) v (watch g) (joystick_changes g) (input_errors g)
            (fd_calls g) (os g) (released g) (faulted g).

Definition set_watch (v : Z) (g : _GLFWlibrary) : _GLFWlibrary :=
  mkLibrary (js g) (inotify g) v (joystick_changes g) (input_errors g)
            (fd_calls g) (os g) (released g) (faulted g).

Definition set_os (o : OS) (g : _GLFWlibrary) : _GLFWlibrary :=
  mkLibrary (js g) (inotify g) (watch g) (joystick_changes g) (input_errors g)
            (fd_calls g) o (released g) (faulted g).

(** [_glfwInputJoystickChange(jid, event)] *)
Definition _glfwInputJoystickChange (jid : nat) (event : Z) (g : _GLFWlibrary)
  : _GLFWlibrary :=
  mkLibrary (js g) (inotify g) (watch g) (joystick_changes g ++ [(jid, event)])
            (input_errors g) (fd_calls g) (os g) (released g) (faulted g).

(** [_glfwInputError(code, format, ...)]; the format string is logged. *)
Definition _glfwInputError (code : Z) (format : string) (g : _GLFWlibrary)
  : _GLFWlibrary :=
  mkLibrary (js g) (inotify g) (watch g) (joystick_changes g)
            (input_errors g ++ [(code, format)]) (fd_calls g) (os g)
            (released g) (faulted g).

Definition log_fd_call (c : fd_call) (g : _GLFWlibrary) : _GLFWlibrary :=
  mkLibrary (js g) (inotify g) (watch g) (joystick_changes g) (input_errors g)
            (fd_calls g ++ [c]) (os g) (released g) (faulted g).

(** [_glfw_free(pointer)], one call for each entry of [calls]. *)
Definition log_released (calls : list cleanup_call) (g : _GLFWlibrary)
  : _GLFWlibrary :=
  mkLibrary (js g) (inotify g) (watch g) (joystick_changes g) (input_errors g)
            (fd_calls g) (os g) (released g ++ calls) (faulted g).

(** A store with no defined behaviour has been attempted. *)
Definition set_faulted (g : _GLFWlibrary) : _GLFWlibrary :=
  mkLibrary (js g) (inotify g) (watch g) (joystick_changes g) (input_errors g)
            (fd_calls g) (os g) (released g) true.

(** [open(path, O_RDONLY | O_NONBLOCK)] *)
Definition sys_open (p : string) (g : _GLFWlibrary) : Z * _GLFWlibrary :=
  let r := os_open (os g) p in (r, log_fd_call (Open p r) g).

(** [close(fd)] *)
Definition sys_close (d : Z) (g : _GLFWlibrary) : _GLFWlibrary :=
  log_fd_call (Close d) g.

(** [_glfw.linux_js.js[jid]]; the table has [GLFW_JOYSTICK_LAST + 1]
    entries (see [table_ok]). *)
Definition slot (tbl : list _GLFWjoystickLinux) (jid : nat) : _GLFWjoystickLinux :=
  default js_zero (tbl !! jid).

(** The ids [GLFW_JOYSTICK_1 .. GLFW_JOYSTICK_LAST] in loop order. *)
Definition jids : list nat :=
  seq GLFW_JOYSTICK_1 (S GLFW_JOYSTICK_LAST - GLFW_JOYSTICK_1).

Definition table_ok (tbl : list _GLFWjoystickLinux) : Prop :=
  length tbl = S GLFW_JOYSTICK_LAST.

(** [strcmp] on a pointer field; a NULL pointer is never compared in a
    present slot, the model reads it as the empty string. *)
Definition path_str (j : _GLFWjoystickLinux) : string := default EmptyString (path j).

(** ** openJoystickDevice *)

(** First loop: some present slot already holds [p]. *)
Definition path_in_use (tbl : list _GLFWjoystickLinux) (p : string) : bool :=
  existsb (fun jid => present (slot tbl jid)
                      && (_glfw_strcmp (path_str (slot tbl jid)) p =? 0))
          jids.

(** Second loop: the first id whose slot is not present; [None] stands
    for [jid > GLFW_JOYSTICK_LAST]. *)
Definition free_jid (tbl : list _GLFWjoystickLinux) : option nat :=
  List.find (fun jid => negb (present (slot tbl jid))) jids.

(** Modelled from the spec: [_glfw_calloc] is a macro of internal.h, which
    is not part of src; it is the C library's [calloc]. A negative [char]
    count converts to a size no allocation can satisfy, and the result is
    NULL. *)
Definition _glfw_calloc {A} (count : Z) (zero : A) : option (list A) :=
  if count <? 0 then None else Some (replicate (Z.to_nat count) zero).

(** The slot as [openJoystickDevice] fills it in. *)
Definition opened_slot (o : OS) (p : string) (d : Z) : _GLFWjoystickLinux :=
  mkJoystick true d
             (Some (default "Unknown"%string (os_name o d)))
             (Some p)
             (os_axes o d) (_glfw_calloc (os_axes o d) float_zero)
             (os_buttons o d) (_glfw_calloc (os_buttons o d) GLFW_RELEASE).

Definition openJoystickDevice (p : string) (g : _GLFWlibrary)
  : bool * _GLFWlibrary :=
  if path_in_use (js g) p then (false, g)
  else
    match free_jid (js g) with
    | None => (false, g)
    | Some jid =>
        let '(d, g) := sys_open p g in
        if d =? -1 then (false, g)
        else
          let version := os_version (os g) d in
          if version <? 0x010000 then (false, sys_close d g)
          else
            let g := set_js (<[jid := opened_slot (os g) p d]> (js g)) g in
            (true, _glfwInputJoystickChange jid GLFW_CONNECTED g)
    end.

(** ** pollJoystickEvents *)

(** [e.type &= ~JS_EVENT_INIT] on an unsigned byte. *)
Definition clear_init (type : Z) : Z :=
  Z.land type (Z.lnot JS_EVENT_INIT) mod 256.

(** [(float) e.value / 32767.0f] *)
Definition axis_value (value : Z) : float :=
  float_div (float_of_int value) (float_of_int 32767).

(** [e.value ? GLFW_PRESS : GLFW_RELEASE] *)
Definition button_value (value : Z) : Z :=
  if value =? 0 then GLFW_RELEASE else GLFW_PRESS.

(** [array[number] = v]. The source checks neither the pointer nor
    [number]: the store is defined when the array is not NULL and [number]
    lies inside it, and then yields the array after the store; otherwise it
    has no defined behaviour, which is [None]. *)
Definition store {A} (array : option (list A)) (number : Z) (v : A)
  : option (list A) :=
  match array with
  | Some l =>
      if (0 <=? number) && (number <? Z.of_nat (length l))
      then Some (<[Z.to_nat number := v]> l)
      else None
  | None => None
  end.

Definition set_axes (a : option (list float)) (j : _GLFWjoystickLinux)
  : _GLFWjoystickLinux :=
  mkJoystick (present j) (fd j) (name j) (path j) (axisCount j) a
             (buttonCount j) (buttons j).

Definition set_buttons (b : option (list Z)) (j : _GLFWjoystickLinux)
  : _GLFWjoystickLinux :=
  mkJoystick (present j) (fd j) (name j) (path j) (axisCount j) (axes j)
             (buttonCount j) b.

(** The body of the read loop after a successful read: the slot after
    the event, or [None] when the store of the event has no defined
    behaviour. *)
Definition handleEvent (e : js_event) (j : _GLFWjoystickLinux)
  : option _GLFWjoystickLinux :=
  let type := clear_init (e_type e) in
  if type =? JS_EVENT_AXIS then
    (fun a => set_axes (Some a) j)
      <$> store (axes j) (e_number e) (axis_value (e_value e))
  else if type =? JS_EVENT_BUTTON then
    (fun b => set_buttons (Some b) j)
      <$> store (buttons j) (e_number e) (button_value (e_value e))
  else Some j.

(** The ENODEV branch: the four pointers of the slot are released, the
    slot is zeroed and the host is told. *)
Definition disconnect (jid : nat) (g : _GLFWlibrary) : _GLFWlibrary :=
  _glfwInputJoystickChange jid GLFW_DISCONNECTED
    (set_js (<[jid := js_zero]> (js g))
            (log_released [FreeAxes jid; FreeButtons jid; FreeName jid; FreePath jid]
                          g)).

(** The loop [for (;;)] of [pollJoystickEvents] on the slot [jid]. [queue]
    lists the outcomes of the reads on the slot's descriptor: an empty
    queue makes the read fail with [EAGAIN]. The result carries the
    outcomes that were not consumed. An event whose store has no defined
    behaviour sets [faulted]. *)
Fixpoint readEvents (jid : nat) (queue : list read_result) (g : _GLFWlibrary)
  : list read_result * _GLFWlibrary :=
  match queue with
  | [] => ([], g)
  | ReadError errno :: queue' =>
      (queue', if errno =? ENODEV then disconnect jid g else g)
  | ReadEvent e :: queue' =>
      readEvents jid queue'
        (match handleEvent e (slot (js g) jid) with
         | Some j' => set_js (<[jid := j']> (js g)) g
         | None => set_faulted g
         end)
  end.

Definition set_events (d : Z) (queue : list read_result) (o : OS) : OS :=
  mkOS (os_open o) (os_version o) (os_name o) (os_axes o) (os_buttons o)
       (fun d' => if d' =? d then queue else os_events o d')
       (os_inotify o) (os_inotify_init1 o) (os_inotify_add_watch o)
       (os_regcomp o) (os_opendir o).

Definition set_inotify_events (events : list inotify_event) (o : OS) : OS :=
  mkOS (os_open o) (os_version o) (os_name o) (os_axes o) (os_buttons o)
       (os_events o) events (os_inotify_init1 o) (os_inotify_add_watch o)
       (os_regcomp o) (os_opendir o).

(** The loop [while (size > offset)] of [_glfwPollJoystickEvents] over the
    records of the buffer. [regexec] is run on [e->name] of every record,
    whatever its [len]; [len] only moves [offset] to the next record. *)
Fixpoint hotplugEvents (events : list inotify_event) (g : _GLFWlibrary)
  : _GLFWlibrary :=
  match events with
  | [] => g
  | e :: events' =>
      hotplugEvents events'
        (if regexec_js (ie_name e)
         then snd (openJoystickDevice (snprintf_path (ie_name e)) g)
         else g)
  end.

Definition _glfwPollJoystickEvents (g : _GLFWlibrary) : _GLFWlibrary :=
  let events := os_inotify (os g) in
  hotplugEvents events (set_os (set_inotify_events [] (os g)) g).

Definition pollJoystickEvents (jid : nat) (g : _GLFWlibrary)
  : bool * _GLFWlibrary :=
  let g := _glfwPollJoystickEvents g in
  if negb (present (slot (js g) jid)) then (false, g)
  else
    let d := fd (slot (js g) jid) in
    let '(rest, g) := readEvents jid (os_events (os g) d) g in
    let g := set_os (set_events d rest (os g)) g in
    (present (slot (js g) jid), g).

(** ** compareJoysticks and the sort *)

Definition compareJoysticks (fj sj : _GLFWjoystickLinux) : Z :=
  _glfw_strcmp (path_str fj) (path_str sj).

(** [fj] may stand before [sj] in an array sorted with [compareJoysticks]. *)
Definition js_le (fj sj : _GLFWjoystickLinux) : Prop :=
  compareJoysticks fj sj <= 0.

#[global] Instance js_le_dec : RelDecision js_le.
Proof. intros fj sj. unfold js_le. apply _. Defined.

(** Modelled from the spec: [_glfw_qsort] is a macro of internal.h, which
    is not part of src; it is the C library's [qsort], which rearranges
    the first [count] elements of the array into non-decreasing order of
    the comparison function. C leaves the order of elements that compare
    equal open; the model sorts with a merge sort. *)
Definition _glfw_qsort (tbl : list _GLFWjoystickLinux) (count : nat)
  : list _GLFWjoystickLinux :=
  merge_sort js_le (take count tbl) ++ drop count tbl.

(** ** _glfwInitJoysticksLinux *)

(** The loop [while ((entry = readdir(dir)))]. *)
Fixpoint scanDirectory (entries : list string) (count : nat) (g : _GLFWlibrary)
  : nat * _GLFWlibrary :=
  match entries with
  | [] => (count, g)
  | entry :: entries' =>
      if negb (regexec_js entry) then scanDirectory entries' count g
      else
        let '(opened, g) := openJoystickDevice (snprintf_path entry) g in
        scanDirectory entries' (if opened then S count else count) g
  end.

(** The block that registers the watch on the device directory (source
    lines 193-203); a failure is reported and initialisation goes on. *)
Definition addWatch (g : _GLFWlibrary) : _GLFWlibrary :=
  let g := set_watch (os_inotify_add_watch (os g)) g in
  if watch g =? -1 then
    _glfwInputError GLFW_PLATFORM_ERROR
      "Linux: Failed to watch for joystick connections in %s: %s" g
  else g.

(** The block that enumerates the device directory (source lines
    211-238); the first component is [count]. *)
Definition scanDevices (g : _GLFWlibrary) : nat * _GLFWlibrary :=
  match os_opendir (os g) with
  | Some entries => scanDirectory entries 0%nat g
  | None =>
      (0%nat, _glfwInputError GLFW_PLATFORM_ERROR
                "Linux: Failed to open joystick device directory %s: %s" g)
  end.

Definition _glfwInitJoysticksLinux (g : _GLFWlibrary) : bool * _GLFWlibrary :=
  let g := set_inotify (os_inotify_init1 (os g)) g in
  if inotify g =? -1 then
    (false, _glfwInputError GLFW_PLATFORM_ERROR
              "Linux: Failed to initialize inotify: %s" g)
  else
    let g := addWatch g in
    if negb (os_regcomp (os g) =? 0) then
      (false, _glfwInputError GLFW_PLATFORM_ERROR
                "Linux: Failed to compile regex" g)
    else
      let '(count, g) := scanDevices g in
      (true, set_js (_glfw_qsort (js g) count) g).

(** ** Platform API *)

Definition _glfwPlatformJoystickPresent (jid : nat) (g : _GLFWlibrary)
  : bool * _GLFWlibrary :=
  pollJoystickEvents jid g.

Definition _glfwPlatformGetJoystickAxes (jid : nat) (g : _GLFWlibrary)
  : option (Z * option (list float)) * _GLFWlibrary :=
  let '(ok, g) := pollJoystickEvents jid g in
  if negb ok then (None, g)
  else (Some (axisCount (slot (js g) jid), axes (slot (js g) jid)), g).

Definition _glfwPlatformGetJoystickButtons (jid : nat) (g : _GLFWlibrary)
  : option (Z * option (list Z)) * _GLFWlibrary :=
  let '(ok, g) := pollJoystickEvents jid g in
  if negb ok then (None, g)
  else (Some (buttonCount (slot (js g) jid), buttons (slot (js g) jid)), g).

Definition _glfwPlatformGetJoystickName (jid : nat) (g : _GLFWlibrary)
  : option string * _GLFWlibrary :=
  let '(ok, g) := pollJoystickEvents jid g in
  if negb ok then (None, g) else (name (slot (js g) jid), g).

(** ** _glfwTerminateJoysticksLinux *)

(** The body of the loop [for (i = 0; i <= GLFW_JOYSTICK_LAST; i++)]. *)
Definition terminateSlot (tbl : list _GLFWjoystickLinux) (i : nat)
  : list cleanup_call :=
  if present (slot tbl i) then
    [CloseFd (fd (slot tbl i)); FreeAxes i; FreeButtons i; FreeName i; FreePath i]
  else [].

(** The function returns nothing and writes no field of the library
    state; it is modelled by the calls it makes, in order. *)
Definition _glfwTerminateJoysticksLinux (g : _GLFWlibrary) : list cleanup_call :=
  flat_map (terminateSlot (js g)) (seq 0 (S GLFW_JOYSTICK_LAST))
  ++ [RegFree]
  ++ (if 0 <? inotify g then
        (if 0 <? watch g then [InotifyRmWatch (inotify g) (watch g)] else [])
        ++ [CloseFd (inotify g)]
      else []).

(** ** The life of the module *)

(** The library state as [glfwInit] hands it over: everything zero. *)
Definition library_start (o : OS) : _GLFWlibrary :=
  mkLibrary (replicate (S GLFW_JOYSTICK_LAST) js_zero) 0 0 [] [] [] o [] false.

(** The entry points and the two static routines they are built from.
    [_glfwTerminateJoysticksLinux] ends the life of the module: it
    releases the arrays of the present slots without clearing them and
    the table is not read afterwards, so it is not a step. *)
Inductive call : Type :=
  | InitJoysticks
  | PollJoystickEvents
  | JoystickPresent (jid : nat)
  | GetJoystickAxes (jid : nat)
  | GetJoystickButtons (jid : nat)
  | GetJoystickName (jid : nat)
  | OpenJoystickDevice (p : string)
  | PollSlot (jid : nat).

Definition exec (c : call) (g : _GLFWlibrary) : _GLFWlibrary :=
  match c with
  | InitJoysticks => snd (_glfwInitJoysticksLinux g)
  | PollJoystickEvents => _glfwPollJoystickEvents g
  | JoystickPresent jid => snd (_glfwPlatformJoystickPresent jid g)
  | GetJoystickAxes jid => snd (_glfwPlatformGetJoystickAxes jid g)
  | GetJoystickButtons jid => snd (_glfwPlatformGetJoystickButtons jid g)
  | GetJoystickName jid => snd (_glfwPlatformGetJoystickName jid g)
  | OpenJoystickDevice p => snd (openJoystickDevice p g)
  | PollSlot jid => snd (pollJoystickEvents jid g)
  end.

(** States the module can be in: calls interleaved with arbitrary changes
    of the operating system (devices appear, events arrive). *)
Inductive reachable : _GLFWlibrary -> Prop :=
  | reach_start o : reachable (library_start o)
  | reach_call c g : reachable g -> reachable (exec c g)
  | reach_os o g : reachable g -> reachable (set_os o g).

(** ** Vocabulary of the properties *)

(** The C string held by a buffer: the bytes before the first NUL. *)
Fixpoint cstr (s : string) : string :=
  match s with
  | EmptyString => EmptyString
  | String c s' =>
      if Z.of_N (N_of_ascii c) =? 0 then EmptyString else String c (cstr s')
  end.

(** The queue of a descriptor as the read loop sees it: the events read
    before the first failure, the [errno] of that failure, and the outcomes
    left for later calls. *)
Fixpoint first_failure (queue : list read_result)
  : list js_event * Z * list read_result :=
  match queue with
  | [] => ([], EAGAIN, [])
  | ReadError errno :: queue' => ([], errno, queue')
  | ReadEvent e :: queue' =>
      let '(events, errno, rest) := first_failure queue' in
      (e :: events, errno, rest)
  end.

(** The slot after the events read before the failure. *)
Definition applyEvents (events : list js_event) (j : _GLFWjoystickLinux)
  : _GLFWjoystickLinux :=
  fold_left (fun j e => default j (handleEvent e j)) events j.

(** Every store of [events], handled in order from [j], is defined. *)
Fixpoint events_defined (events : list js_event) (j : _GLFWjoystickLinux) : bool :=
  match events with
  | [] => true
  | e :: events' =>
      match handleEvent e j with
      | Some j' => events_defined events' j'
      | None => false
      end
  end.

(** A [char] as the driver's count byte leaves it where [char] is signed
    (x86): bytes from 0x80 on are negative. *)
Definition char_of_byte (b : Z) : Z := if b <? 128 then b else b - 256.

(** An inotify event that names a file. *)
Definition inotify_named (n : string) : inotify_event :=
  mkInotify (Z.of_nat (String.length n) + 1) n.

(** [x] lies between -1.0f and 1.0f (the two literals are
    [float_of_int (-1)] and [float_of_int 1]). *)
Definition in_unit (x : float) : bool :=
  float_leb (S754_finite true 8388608 (-23)) x
  && float_leb x (S754_finite false 8388608 (-23)).

(** The values stored for [v] and for [- v] both lie between -1.0f and
    1.0f; the divisor is the literal of [float_of_int 32767]. *)
Definition axis_pair_in_unit (v : Z) : bool :=
  let x := float_div (float_of_int v) (S754_finite false 16776704 (-9)) in
  in_unit x && in_unit (SFopp x).

(** [f] holds on the [2 ^ k] integers from [a] on. *)
Fixpoint all_in (f : Z -> bool) (k : nat) (a : Z) : bool :=
  match k with
  | O => f a
  | S k' => all_in f k' a && all_in f k' (a + 2 ^ Z.of_nat k')
  end.

(** A path [openJoystickDevice] is handed for one of [names]: the name
    matches the pattern and the path is what [snprintf] makes of it, which
    is again a file of [/dev/input] whose name matches the pattern. *)
Definition matching_path (names : list string) (p : string) : Prop :=
  exists n, In n names /\ regexec_js n = true /\ p = snprintf_path n /\
            exists n', regexec_js n' = true /\ p = ("/dev/input/" ++ n')%string.

(** The slots [0 .. n-1] are in use and no other: the shape of the table
    while devices are only added. *)
Definition prefix_full (n : nat) (tbl : list _GLFWjoystickLinux) : Prop :=
  table_ok tbl /\
  (forall k, (k < n)%nat -> present (slot tbl k) = true) /\
  (forall k, (n <= k)%nat -> present (slot tbl k) = false).

(** The slots in use. *)
Definition populated (tbl : list _GLFWjoystickLinux) : list _GLFWjoystickLinux :=
  filter (fun j => present j = true) tbl.

(** Every element of every button array is a button state. *)
Definition button_state (b : Z) : Prop := b = GLFW_PRESS \/ b = GLFW_RELEASE.

Definition slot_buttons_boolean (j : _GLFWjoystickLinux) : Prop :=
  forall l, buttons j = Some l -> Forall button_state l.

Definition buttons_boolean (tbl : list _GLFWjoystickLinux) : Prop :=
  Forall slot_buttons_boolean tbl.

(** The C strings of the paths of the slots in use are pairwise distinct. *)
Definition path_key (j : _GLFWjoystickLinux) : string := cstr (path_str j).

Definition distinct_paths (tbl : list _GLFWjoystickLinux) : Prop :=
  NoDup (path_key <$> populated tbl).

(** The invariant of the table: sixteen slots, distinct paths. *)
Definition table_distinct (tbl : list _GLFWjoystickLinux) : Prop :=
  table_ok tbl /\ distinct_paths tbl.

(** Non-decreasing order of the device paths, as [compareJoysticks] sees
    them. *)
Definition sorted_by_path (l : list _GLFWjoystickLinux) : Prop :=
  StronglySorted js_le l.

(** The five ways through [openJoystickDevice]. *)
Inductive open_outcome (p : string) (g : _GLFWlibrary)
  : bool * _GLFWlibrary -> Prop :=
  | open_known :
      path_in_use (js g) p = true ->
      open_outcome p g (false, g)
  | open_full :
      path_in_use (js g) p = false -> free_jid (js g) = None ->
      open_outcome p g (false, g)
  | open_failed jid :
      path_in_use (js g) p = false -> free_jid (js g) = Some jid ->
      os_open (os g) p = -1 ->
      open_outcome p g (false, log_fd_call (Open p (-1)) g)
  | open_old jid d :
      path_in_use (js g) p = false -> free_jid (js g) = Some jid ->
      os_open (os g) p = d -> d <> -1 -> os_version (os g) d < 0x010000 ->
      open_outcome p g (false, log_fd_call (Close d) (log_fd_call (Open p d) g))
  | open_done jid d :
      path_in_use (js g) p = false -> free_jid (js g) = Some jid ->
      os_open (os g) p = d -> d <> -1 -> 0x010000 <= os_version (os g) d ->
      open_outcome p g
        (true,
         _glfwInputJoystickChange jid GLFW_CONNECTED
           (set_js (<[jid := opened_slot (os g) p d]> (js g))
                   (log_fd_call (Open p d) g))).

(** The descriptors closed by a run of cleanup calls, in order. *)
Definition closed_fds (calls : list cleanup_call) : list Z :=
  omap (fun c => match c with CloseFd d => Some d | _ => None end) calls.

(** An array allocated with [_glfw_calloc] for [count] elements: [count]
    elements, or NULL for a negative count. *)
Definition array_fits {A} (count : Z) (array : option (list A)) : Prop :=
  match array with
  | Some l => 0 <= count /\ length l = Z.to_nat count
  | None => count < 0
  end.

(** A slot in use has a name and a path and arrays that fit its counts; a
    slot not in use is all zero. *)
Definition slot_sound (j : _GLFWjoystickLinux) : Prop :=
  if present j then
    name j <> None /\ path j <> None /\
    array_fits (axisCount j) (axes j) /\
    array_fits (buttonCount j) (buttons j)
  else j = js_zero.

Definition table_sound (tbl : list _GLFWjoystickLinux) : Prop :=
  Forall slot_sound tbl.

(** Every descriptor that was opened is closed again or held by a slot in
    use. *)
Definition held_or_closed (g : _GLFWlibrary) : Prop :=
  forall p d,
    In (Open p d) (fd_calls g) -> d <> -1 ->
    In (Close d) (fd_calls g) \/ exists j, j ∈ populated (js g) /\ fd j = d.

Definition descriptors_accounted (g : _GLFWlibrary) : Prop :=
  table_ok (js g) /\ held_or_closed g.

(** The log of joystick changes after [n] devices were connected to a
    fresh table: one connection for each of the ids [0 .. n-1], in order. *)
Definition connections (n : nat) : list (nat * Z) :=
  (fun k => (k, GLFW_CONNECTED)) <$> seq 0 n.

Definition connected_in_order (n : nat) (g : _GLFWlibrary) : Prop :=
  prefix_full n (js g) /\ joystick_changes g = connections n.

(** A well-formed entry of the log of joystick changes. *)
Definition change_ok (c : nat * Z) : Prop :=
  (fst c <= GLFW_JOYSTICK_LAST)%nat /\
  (snd c = GLFW_CONNECTED \/ snd c = GLFW_DISCONNECTED).

Definition changes_ok (g : _GLFWlibrary) : Prop :=
  table_ok (js g) /\ Forall change_ok (joystick_changes g).

(** ** Sample inputs *)

Module Sample.

(** Two devices, [/dev/input/js0] (descriptor 5, named Zeta) and
    [/dev/input/js1] (descriptor 6, named Alpha), with two axes and three
    buttons each; [readdir] lists js1 before js0. *)
Definition pads (version : Z) (buttons : Z) (events : Z -> list read_result)
  (hotplug : list inotify_event) : OS :=
  mkOS (fun p => if String.eqb p "/dev/input/js0" then 5
                 else if String.eqb p "/dev/input/js1" then 6 else -1)
       (fun _ => version)
       (fun d => if d =? 5 then Some "Zeta"%string else Some "Alpha"%string)
       (fun _ => 2) (fun _ => buttons)
       events hotplug 3 1 0
       (Some ["."; "js1"; "event0"; "js0"]%string).

Definition two_pads (version : Z) (events : Z -> list read_result)
  (hotplug : list string) : OS :=
  pads version 3 events (map inotify_named hotplug).

Definition no_events : Z -> list read_result := fun _ => [].

(** A fresh library on a system with a current driver. *)
Definition fresh : _GLFWlibrary := library_start (two_pads 0x020100 no_events []).

(** A fresh library on a system with a 0.x driver. *)
Definition fresh_old : _GLFWlibrary := library_start (two_pads 0x000900 no_events []).

(** The library after initialisation: js0 in slot 0, js1 in slot 1. *)
Definition started : _GLFWlibrary := snd (_glfwInitJoysticksLinux fresh).

(** A table whose sixteen slots are all in use. *)
Definition full : _GLFWlibrary :=
  set_js (replicate (S GLFW_JOYSTICK_LAST)
            (mkJoystick true 9 (Some "pad"%string) (Some "/dev/input/js9"%string)
                        0 (Some []) 0 (Some [])))
         fresh.

(** A table whose slots 0 to 14 are in use; slot 15 is free. *)
Definition nearly_full : _GLFWlibrary :=
  set_js (replicate GLFW_JOYSTICK_LAST
            (mkJoystick true 9 (Some "pad"%string) (Some "/dev/input/js9"%string)
                        0 (Some []) 0 (Some []))
          ++ [js_zero])
         fresh.

(** A fresh library on a system whose devices have 200 buttons: the
    driver writes the byte 200 into the [char] that receives the count. *)
Definition crowded : _GLFWlibrary :=
  library_start (pads 0x020100 (char_of_byte 200) no_events []).

(** A fresh library while the inotify buffer holds one event without a
    name (an attribute change of the watched directory itself, [len] 0),
    and the bytes behind the record, left there by an earlier read, spell
    js0. *)
Definition nameless : _GLFWlibrary :=
  library_start (pads 0x020100 3 no_events [mkInotify 0 "js0"]).

(** A fresh library while descriptor 0 (the [fd] of a zeroed slot) would
    answer a read with [ENODEV]. *)
Definition detached : _GLFWlibrary :=
  library_start
    (two_pads 0x020100 (fun d => if d =? 0 then [ReadError ENODEV] else []) []).

(** A fresh library while the inotify descriptor reports that js0 has
    appeared. *)
Definition plugged : _GLFWlibrary :=
  library_start (two_pads 0x020100 no_events ["js0"%string]).

(** The initialised library while js0 (descriptor 5) has an axis event, a
    button event and then the removal of the device queued, followed by
    one more outcome. *)
Definition unplugging : _GLFWlibrary :=
  set_os (two_pads 0x020100
            (fun d => if d =? 5
                      then [ReadEvent (mkEvent 32767 0x82 1);
                            ReadEvent (mkEvent 1 0x01 2);
                            ReadError ENODEV;
                            ReadEvent (mkEvent 0 0x01 2)]
                      else [])
            [])
         started.

(** The initialised library while js0 (descriptor 5) reports axis 0 at
    the lowest value a signed 16-bit field holds. *)
Definition pushed : _GLFWlibrary :=
  set_os (two_pads 0x020100
            (fun d => if d =? 5 then [ReadEvent (mkEvent (-32768) 0x02 0)] else [])
            [])
         started.

(** The initialised library while js0 (descriptor 5) reports, for the
    first time, that button 2 is down. *)
Definition pressing : _GLFWlibrary :=
  set_os (two_pads 0x020100
            (fun d => if d =? 5 then [ReadEvent (mkEvent 1 0x81 2)] else [])
            [])
         started.

(** The initialised library while js0 (descriptor 5), a device with
    three buttons, reports that button 7 is down. *)
Definition stray : _GLFWlibrary :=
  set_os (two_pads 0x020100
            (fun d => if d =? 5 then [ReadEvent (mkEvent 1 0x01 7)] else [])
            [])
         started.

(** A fresh library on a system where the directory watch cannot be
    added and the device directory cannot be opened. *)
Definition unwatched : _GLFWlibrary :=
  library_start
    (mkOS (fun _ => -1) (fun _ => 0) (fun _ => None) (fun _ => 0) (fun _ => 0)
          no_events [] 3 (-1) 0 None).

End Sample.

(** Two more states of the sample system, written out. *)
Module Sample2.

Definition pad (d : Z) (n p : string) : _GLFWjoystickLinux :=
  mkJoystick true d (Some n) (Some p) 2 (Some [float_zero; float_zero])
             3 (Some [0; 0; 0]).

(** Both devices connected: js0 in slot 0 and js1 in slot 1. *)
Definition running : _GLFWlibrary :=
  mkLibrary
    ([pad 5 "Zeta" "/dev/input/js0"; pad 6 "Alpha" "/dev/input/js1"]
     ++ replicate 14 js_zero)
    3 1 [(0%nat, GLFW_CONNECTED); (1%nat, GLFW_CONNECTED)] []
    [Open "/dev/input/js1" 6; Open "/dev/input/js0" 5]
    (Sample.two_pads 0x020100 Sample.no_events []) [] false.

(** The system once js0 has been pulled: the next read on its descriptor
    fails with [ENODEV]. *)
Definition js0_pulled : OS :=
  Sample.two_pads 0x020100 (fun d => if d =? 5 then [ReadError ENODEV] else []) [].

(** A fresh library on a system where the pattern cannot be compiled. *)
Definition no_regex : _GLFWlibrary :=
  library_start
    (mkOS (fun _ => 7) (fun _ => 0x020100) (fun _ => None) (fun _ => 0)
          (fun _ => 0) Sample.no_events [] 3 1 1 (Some ["js0"%string])).

End Sample2.

(** * Properties *)

(** ** strcmp *)

Section Strcmp.

Local Ltac bytes :=
  repeat match goal with
         | |- context [(?x =? ?y)] => destruct (Z.eqb_spec x y)
         | H : context [(?x =? ?y)] |- _ => destruct (Z.eqb_spec x y)
         end; simpl in *; try lia; try congruence.

Lemma byte_range (c : ascii) : 0 <= Z.of_N (N_of_ascii c) < 256.
Proof.
  pose proof (N_ascii_bounded c) as H. lia.
Qed.

Lemma byte_inj (c d : ascii) :
  Z.of_N (N_of_ascii c) = Z.of_N (N_of_ascii d) -> c = d.
Proof.
  intros H. apply N2Z.inj in H.
  rewrite <- (ascii_N_embedding c), <- (ascii_N_embedding d). now rewrite H.
Qed.

Lemma strcmp_refl (a : string) : _glfw_strcmp a a = 0.
Proof.
  induction a as [|c a IH]; simpl; [reflexivity|]. bytes.
Qed.

Lemma strcmp_antisym (a b : string) : _glfw_strcmp b a = - _glfw_strcmp a b.
Proof.
  revert b. induction a as [|c a IH]; intros [|d b]; simpl; bytes; auto.
Qed.

Lemma strcmp_zero_iff (a b : string) :
  _glfw_strcmp a b = 0 <-> cstr a = cstr b.
Proof.
  revert b. induction a as [|c a IH]; intros [|d b]; simpl.
  - tauto.
  - pose proof (byte_range d). bytes; split; intros; try lia; congruence.
  - pose proof (byte_range c). bytes; split; intros; try lia; congruence.
  - pose proof (byte_range c). pose proof (byte_range d).
    bytes; try tauto.
    + rewrite IH. assert (c = d) by now apply byte_inj. subst d.
      split; intros; congruence.
    + split; intros E; [lia | discriminate].
    + split; intros E; [lia | discriminate].
    + split; intros E; [lia|]. injection E as E _. congruence.
Qed.

Lemma strcmp_trans (a b c : string) :
  _glfw_strcmp a b <= 0 -> _glfw_strcmp b c <= 0 -> _glfw_strcmp a c <= 0.
Proof.
  revert b c. induction a as [|x a IH]; intros [|y b] [|z c]; simpl;
    try pose proof (byte_range x); try pose proof (byte_range y);
    try pose proof (byte_range z); bytes; eauto.
Qed.

End Strcmp.

#[global] Instance js_le_total : Total js_le.
Proof.
  intros fj sj. unfold js_le, compareJoysticks.
  rewrite (strcmp_antisym (path_str fj) (path_str sj)). lia.
Qed.

#[global] Instance js_le_trans : Transitive js_le.
Proof.
  intros x y z. unfold js_le, compareJoysticks. apply strcmp_trans.
Qed.

(** ** The device table *)

Section Table.

Implicit Types (tbl : list _GLFWjoystickLinux) (j : _GLFWjoystickLinux).
Implicit Types (jid k : nat).

Lemma slot_lookup tbl jid j : tbl !! jid = Some j -> slot tbl jid = j.
Proof. unfold slot. now intros ->. Qed.

Lemma slot_insert_eq tbl jid j :
  (jid < length tbl)%nat -> slot (<[jid := j]> tbl) jid = j.
Proof.
  intros H. unfold slot. now rewrite list_lookup_insert_eq.
Qed.

Lemma slot_insert_ne tbl jid k j :
  k <> jid -> slot (<[jid := j]> tbl) k = slot tbl k.
Proof.
  intros H. unfold slot. now rewrite list_lookup_insert_ne.
Qed.

Lemma slot_present_lookup tbl k :
  present (slot tbl k) = true -> tbl !! k = Some (slot tbl k).
Proof.
  unfold slot. destruct (tbl !! k); simpl; [reflexivity | discriminate].
Qed.

Lemma jids_spec jid : In jid jids <-> (jid <= GLFW_JOYSTICK_LAST)%nat.
Proof.
  unfold jids. rewrite in_seq. unfold GLFW_JOYSTICK_1, GLFW_JOYSTICK_LAST. lia.
Qed.

Lemma find_seq_first (f : nat -> bool) (a n k : nat) :
  List.find f (seq a n) = Some k ->
  (a <= k < a + n)%nat /\ f k = true /\ forall i, (a <= i < k)%nat -> f i = false.
Proof.
  revert a. induction n as [|n IH]; intros a; simpl; [discriminate|].
  destruct (f a) eqn:Fa.
  - intros [= <-]. repeat split; try lia; auto.
  - intros H. apply IH in H as (Hr & Hk & Hlow).
    repeat split; try lia; auto.
    intros i Hi. destruct (Nat.eq_dec i a) as [->|Hne]; [assumption|].
    apply Hlow. lia.
Qed.

Lemma free_jid_Some tbl jid :
  free_jid tbl = Some jid ->
  (jid <= GLFW_JOYSTICK_LAST)%nat /\
  present (slot tbl jid) = false /\
  forall k, (k < jid)%nat -> present (slot tbl k) = true.
Proof.
  unfold free_jid, jids. intros H. apply find_seq_first in H as (Hr & Hk & Hlow).
  unfold GLFW_JOYSTICK_1, GLFW_JOYSTICK_LAST in *.
  repeat split; [lia | now apply negb_true_iff in Hk |].
  intros k Hk'. specialize (Hlow k). apply negb_false_iff. apply Hlow. lia.
Qed.

Lemma free_jid_None tbl :
  free_jid tbl = None <->
  forall k, (k <= GLFW_JOYSTICK_LAST)%nat -> present (slot tbl k) = true.
Proof.
  unfold free_jid. split.
  - intros H k Hk. apply jids_spec in Hk.
    pose proof (find_none _ _ H k Hk) as E. now apply negb_false_iff in E.
  - intros H. destruct (List.find _ jids) as [k|] eqn:E; [|reflexivity].
    apply find_some in E as [Hin Hk]. apply jids_spec in Hin.
    rewrite (H k Hin) in Hk. discriminate.
Qed.

Lemma path_in_use_true tbl p :
  path_in_use tbl p = true <->
  exists jid, (jid <= GLFW_JOYSTICK_LAST)%nat /\ present (slot tbl jid) = true /\
              _glfw_strcmp (path_str (slot tbl jid)) p = 0.
Proof.
  unfold path_in_use. rewrite existsb_exists. split.
  - intros (jid & Hin & H). apply andb_true_iff in H as [Hp Hc].
    exists jid. rewrite <- jids_spec. repeat split; auto. lia.
  - intros (jid & Hin & Hp & Hc). exists jid. rewrite jids_spec. split; auto.
    rewrite Hp, Hc. reflexivity.
Qed.

Lemma path_in_use_false tbl p jid :
  path_in_use tbl p = false -> (jid <= GLFW_JOYSTICK_LAST)%nat ->
  present (slot tbl jid) = true ->
  _glfw_strcmp (path_str (slot tbl jid)) p <> 0.
Proof.
  intros H Hin Hp Hc.
  assert (path_in_use tbl p = true) by (apply path_in_use_true; eauto).
  congruence.
Qed.

End Table.

(** ** openJoystickDevice, case by case *)

Lemma openJoystickDevice_outcome (p : string) (g : _GLFWlibrary) :
  open_outcome p g (openJoystickDevice p g).
Proof.
  unfold openJoystickDevice.
  destruct (path_in_use (js g) p) eqn:Hin; [now constructor|].
  destruct (free_jid (js g)) as [jid|] eqn:Hfree; [|now constructor].
  unfold sys_open. simpl.
  destruct (Z.eqb_spec (os_open (os g) p) (-1)) as [E|E].
  - rewrite E. now apply open_failed with jid.
  - destruct (Z.ltb_spec (os_version (os g) (os_open (os g) p)) 0x010000).
    + now apply open_old with jid.
    + now apply open_done.
Qed.

(** The successful path. *)
Lemma openJoystickDevice_opened (p : string) (g g' : _GLFWlibrary) :
  table_ok (js g) ->
  openJoystickDevice p g = (true, g') ->
  exists jid,
    free_jid (js g) = Some jid /\
    path_in_use (js g) p = false /\
    slot (js g') jid = opened_slot (os g) p (os_open (os g) p) /\
    (forall k, k <> jid -> slot (js g') k = slot (js g) k) /\
    joystick_changes g' = joystick_changes g ++ [(jid, GLFW_CONNECTED)].
Proof.
  intros Hok Hrun.
  pose proof (openJoystickDevice_outcome p g) as Hout. rewrite Hrun in Hout.
  inversion Hout as [| | | |jid d Hin Hfree Hd Hne Hv]; subst.
  exists jid. simpl. repeat split; auto.
  - apply slot_insert_eq. apply free_jid_Some in Hfree as (Hr & _).
    rewrite Hok. lia.
  - intros k Hk. now apply slot_insert_ne.
Qed.

(** ** Discovery *)

(** X20. [openJoystickDevice] returns true exactly when it reports one
    connection. When it returns true, the log of joystick changes has grown
    by the single entry [(jid, GLFW_CONNECTED)], the slot [jid] was free and
    now holds the device (present, descriptor, name, path, counts and what
    [_glfw_calloc] returned for them: arrays of zeros when the counts are
    not negative), and every other slot is as before. When it returns
    false, the table and the log of joystick changes are as before. *)
Theorem openJoystickDevice_connects
  (p : string) (g g' : _GLFWlibrary) (opened : bool) :
  table_ok (js g) ->
  openJoystickDevice p g = (opened, g') ->
  (opened = true ->
   exists jid d,
     (jid <= GLFW_JOYSTICK_LAST)%nat /\
     present (slot (js g) jid) = false /\
     d = os_open (os g) p /\
     joystick_changes g' = joystick_changes g ++ [(jid, GLFW_CONNECTED)] /\
     slot (js g') jid =
       mkJoystick true d (Some (default "Unknown"%string (os_name (os g) d)))
                  (Some p)
                  (os_axes (os g) d) (_glfw_calloc (os_axes (os g) d) float_zero)
                  (os_buttons (os g) d)
                  (_glfw_calloc (os_buttons (os g) d) GLFW_RELEASE) /\
     (0 <= os_axes (os g) d ->
      axes (slot (js g') jid)
      = Some (replicate (Z.to_nat (os_axes (os g) d)) float_zero)) /\
     (0 <= os_buttons (os g) d ->
      buttons (slot (js g') jid)
      = Some (replicate (Z.to_nat (os_buttons (os g) d)) GLFW_RELEASE)) /\
     (forall k, k <> jid -> slot (js g') k = slot (js g) k)) /\
  (opened = false ->
   js g' = js g /\ joystick_changes g' = joystick_changes g).
Proof.
  intros Hok Hrun.
  pose proof (openJoystickDevice_outcome p g) as Hout. rewrite Hrun in Hout.
  inversion Hout as [| | | |jid d Hin Hfree Hd Hne Hv]; subst; simpl;
    try (split; [discriminate | auto]).
  split; [intros _ | discriminate].
  apply free_jid_Some in Hfree as (Hr & Hp & _).
  assert (Hlen : (jid < length (js g))%nat) by (rewrite Hok; lia).
  exists jid, (os_open (os g) p). repeat split; auto.
  - now rewrite slot_insert_eq.
  - intros H. rewrite slot_insert_eq by assumption. simpl.
    unfold _glfw_calloc.
    destruct (Z.ltb_spec (os_axes (os g) (os_open (os g) p)) 0); [lia | reflexivity].
  - intros H. rewrite slot_insert_eq by assumption. simpl.
    unfold _glfw_calloc.
    destruct (Z.ltb_spec (os_buttons (os g) (os_open (os g) p)) 0); [lia | reflexivity].
  - intros k Hk. now apply slot_insert_ne.
Qed.

(** On the sample system: opening js0 from the fresh library reports the
    connection of joystick 0 and gives it three released buttons. *)
Lemma openJoystickDevice_connects_witness :
  table_ok (js Sample.fresh) /\
  joystick_changes (snd (openJoystickDevice "/dev/input/js0" Sample.fresh))
  = joystick_changes Sample.fresh ++ [(0%nat, GLFW_CONNECTED)] /\
  buttons (slot (js (snd (openJoystickDevice "/dev/input/js0" Sample.fresh))) 0)
  = Some [GLFW_RELEASE; GLFW_RELEASE; GLFW_RELEASE].
Proof.
  split; [reflexivity|].
  destruct (openJoystickDevice_connects "/dev/input/js0" Sample.fresh
              (snd (openJoystickDevice "/dev/input/js0" Sample.fresh)) true
              eq_refl eq_refl) as [Htrue _].
  destruct (Htrue eq_refl) as (jid & d & _ & Hfree & Hd & Hlog & _ & _ & Hb & _).
  assert (jid = 0%nat) as ->.
  { pose proof Hlog as E. vm_compute in E. now injection E. }
  split; [exact Hlog|]. rewrite Hb; [rewrite Hd; reflexivity | rewrite Hd; discriminate].
Defined.

(** C2. A device with 200 buttons. The driver writes the count byte 200
    into [buttonCount], a [char], which is signed here and reads -56.
    [openJoystickDevice] returns true and reports the connection, and the
    slot it has filled holds the button count -56 and a NULL button array,
    [_glfw_calloc] having been asked for -56 elements; the claim has a
    zero-initialised array of the reported size, 200 elements. *)
Theorem openJoystickDevice_negative_count :
  os_buttons (os Sample.crowded) 5 = char_of_byte 200 /\
  char_of_byte 200 = -56 /\
  fst (openJoystickDevice "/dev/input/js0" Sample.crowded) = true /\
  joystick_changes (snd (openJoystickDevice "/dev/input/js0" Sample.crowded))
  = [(0%nat, GLFW_CONNECTED)] /\
  present (slot (js (snd (openJoystickDevice "/dev/input/js0" Sample.crowded))) 0)
  = true /\
  axes (slot (js (snd (openJoystickDevice "/dev/input/js0" Sample.crowded))) 0)
  = Some [float_zero; float_zero] /\
  buttonCount (slot (js (snd (openJoystickDevice "/dev/input/js0" Sample.crowded))) 0)
  = -56 /\
  buttons (slot (js (snd (openJoystickDevice "/dev/input/js0" Sample.crowded))) 0)
  = None.
Proof.
  repeat split; reflexivity.
Qed.

(** C3. The table is a fixed array of slots. [openJoystickDevice] leaves
    every slot in use as it is; when it returns true it has filled the free
    slot of lowest index; it does return true, with the device in the free
    slot of lowest index, whenever some slot from [GLFW_JOYSTICK_1] to
    [GLFW_JOYSTICK_LAST] is free, no slot in use holds the path, [open]
    succeeds and the driver is not older than 1.0; when every slot from
    [GLFW_JOYSTICK_1] to [GLFW_JOYSTICK_LAST] is in use it returns false
    and the whole state, the log of [open] calls included, is as before;
    the table keeps its size, so the slots in use never outnumber it. *)
Theorem openJoystickDevice_fixed_table
  (p : string) (g g' : _GLFWlibrary) (opened : bool) :
  table_ok (js g) ->
  openJoystickDevice p g = (opened, g') ->
  (forall k, present (slot (js g) k) = true -> slot (js g') k = slot (js g) k) /\
  (opened = true ->
   exists jid,
     (jid <= GLFW_JOYSTICK_LAST)%nat /\
     present (slot (js g) jid) = false /\
     (forall k, (k < jid)%nat -> present (slot (js g) k) = true) /\
     present (slot (js g') jid) = true /\
     path (slot (js g') jid) = Some p /\
     (forall k, k <> jid -> slot (js g') k = slot (js g) k)) /\
  (forall k,
     (GLFW_JOYSTICK_1 <= k <= GLFW_JOYSTICK_LAST)%nat ->
     present (slot (js g) k) = false ->
     path_in_use (js g) p = false ->
     os_open (os g) p <> -1 ->
     0x010000 <= os_version (os g) (os_open (os g) p) ->
     opened = true /\
     exists jid,
       (jid <= k)%nat /\
       present (slot (js g) jid) = false /\
       (forall i, (i < jid)%nat -> present (slot (js g) i) = true) /\
       slot (js g') jid = opened_slot (os g) p (os_open (os g) p)) /\
  ((forall k, (GLFW_JOYSTICK_1 <= k <= GLFW_JOYSTICK_LAST)%nat ->
              present (slot (js g) k) = true) ->
   opened = false /\ g' = g) /\
  table_ok (js g') /\
  (length (populated (js g')) <= S GLFW_JOYSTICK_LAST)%nat.
Proof.
  intros Hok Hrun.
  pose proof (openJoystickDevice_outcome p g) as Hout. rewrite Hrun in Hout.
  assert (Hsize : forall tbl, table_ok tbl ->
                    (length (populated tbl) <= S GLFW_JOYSTICK_LAST)%nat).
  { intros tbl <-. apply length_filter. }
  inversion Hout as [Hin|Hin Hfree|jid Hin Hfree Hd|jid d Hin Hfree Hd Hne Hv
                     |jid d Hin Hfree Hd Hne Hv]; subst; simpl.
  - split; [|split; [|split; [|split; [|split]]]]; auto; try discriminate.
    intros k _ _ Hin'. congruence.
  - split; [|split; [|split; [|split; [|split]]]]; auto; try discriminate.
    intros k [_ Hk] Hfree' _ _ _.
    pose proof (proj1 (free_jid_None _) Hfree k Hk) as E. congruence.
  - split; [|split; [|split; [|split; [|split]]]]; auto; try discriminate.
    + intros k _ _ _ Hopen. contradiction.
    + intros Hall. apply free_jid_Some in Hfree as (Hr & Hp & _).
      rewrite Hall in Hp; [discriminate | unfold GLFW_JOYSTICK_1; lia].
  - split; [|split; [|split; [|split; [|split]]]]; auto; try discriminate.
    + intros k _ _ _ _ Hver. lia.
    + intros Hall. apply free_jid_Some in Hfree as (Hr & Hp & _).
      rewrite Hall in Hp; [discriminate | unfold GLFW_JOYSTICK_1; lia].
  - apply free_jid_Some in Hfree as (Hr & Hp & Hlow).
    assert (Hlen : (jid < length (js g))%nat) by (rewrite Hok; lia).
    assert (Hok' : table_ok (<[jid := opened_slot (os g) p (os_open (os g) p)]> (js g))).
    { unfold table_ok. now rewrite length_insert. }
    split; [|split; [|split; [|split; [|split]]]]; auto.
    + intros k Hk. apply slot_insert_ne. intros ->. congruence.
    + intros _. exists jid. repeat split; auto.
      * now rewrite slot_insert_eq.
      * now rewrite slot_insert_eq.
      * intros k Hk. now apply slot_insert_ne.
    + intros k _ Hfree' _ _ _. split; [reflexivity|].
      exists jid. repeat split; auto.
      * destruct (Nat.le_gt_cases jid k) as [H|H]; [assumption|].
        rewrite (Hlow k H) in Hfree'. discriminate.
      * now apply slot_insert_eq.
    + intros Hall. rewrite Hall in Hp; [discriminate | unfold GLFW_JOYSTICK_1; lia].
Qed.

(** On a table whose slots 0 to 14 are in use, js0 is put into slot 15. *)
Lemma openJoystickDevice_fixed_table_witness :
  table_ok (js Sample.nearly_full) /\
  present (slot (js Sample.nearly_full) 15) = false /\
  fst (openJoystickDevice "/dev/input/js0" Sample.nearly_full) = true /\
  path (slot (js (snd (openJoystickDevice "/dev/input/js0" Sample.nearly_full))) 15)
  = Some "/dev/input/js0"%string.
Proof.
  split; [reflexivity|]. split; [reflexivity|].
  destruct (openJoystickDevice_fixed_table "/dev/input/js0" Sample.nearly_full
              (snd (openJoystickDevice "/dev/input/js0" Sample.nearly_full))
              (fst (openJoystickDevice "/dev/input/js0" Sample.nearly_full))
              eq_refl eq_refl) as (_ & _ & Hfree & _).
  destruct (Hfree 15%nat) as (Hres & jid & Hle & Hp & _ & Hslot).
  - unfold GLFW_JOYSTICK_1, GLFW_JOYSTICK_LAST. lia.
  - reflexivity.
  - reflexivity.
  - discriminate.
  - discriminate.
  - split; [exact Hres|].
    assert (jid = 15%nat) as ->.
    { do 15 (destruct jid as [|jid]; [discriminate Hp|]). lia. }
    rewrite Hslot. reflexivity.
Defined.

(** C4. When the driver behind [p] reports a version below 1.0
    ([0x010000]), [openJoystickDevice] returns false, the table and the log
    of joystick changes are as before, and the descriptor it opened is
    closed: the calls it adds to the log are [open] followed by [close] of
    the same descriptor (or nothing, or a failed [open], when the version
    query is not reached). *)
Theorem openJoystickDevice_old_driver
  (p : string) (g g' : _GLFWlibrary) (opened : bool) :
  os_version (os g) (os_open (os g) p) < 0x010000 ->
  openJoystickDevice p g = (opened, g') ->
  opened = false /\
  js g' = js g /\
  joystick_changes g' = joystick_changes g /\
  (path_in_use (js g) p = false -> free_jid (js g) <> None ->
   os_open (os g) p <> -1 ->
   fd_calls g' = fd_calls g ++ [Open p (os_open (os g) p); Close (os_open (os g) p)]) /\
  (fd_calls g' = fd_calls g \/
   fd_calls g' = fd_calls g ++ [Open p (-1)] \/
   fd_calls g' = fd_calls g ++ [Open p (os_open (os g) p); Close (os_open (os g) p)]).
Proof.
  intros Hold Hrun.
  pose proof (openJoystickDevice_outcome p g) as Hout. rewrite Hrun in Hout.
  inversion Hout as [Hin|Hin Hfree|jid Hin Hfree Hd|jid d Hin Hfree Hd Hne Hv
                     |jid d Hin Hfree Hd Hne Hv]; subst; simpl.
  - repeat split; auto. congruence.
  - repeat split; auto. congruence.
  - repeat split; auto. congruence.
  - rewrite <- app_assoc. simpl. repeat split; auto.
  - lia.
Qed.

(** On the sample system with a 0.x driver: js0 is opened and closed
    again. *)
Lemma openJoystickDevice_old_driver_witness :
  os_version (os Sample.fresh_old) (os_open (os Sample.fresh_old) "/dev/input/js0")
  < 0x010000 /\
  fd_calls (snd (openJoystickDevice "/dev/input/js0" Sample.fresh_old))
  = [Open "/dev/input/js0" 5; Close 5].
Proof.
  split; [reflexivity|].
  destruct (openJoystickDevice_old_driver "/dev/input/js0" Sample.fresh_old
              (snd (openJoystickDevice "/dev/input/js0" Sample.fresh_old))
              (fst (openJoystickDevice "/dev/input/js0" Sample.fresh_old))
              eq_refl eq_refl) as (_ & _ & _ & Hcalls & _).
  apply Hcalls; [reflexivity | discriminate | discriminate].
Defined.

(** ** Invariants of the device table *)

Lemma _glfw_qsort_Permutation (tbl : list _GLFWjoystickLinux) (count : nat) :
  _glfw_qsort tbl count ≡ₚ tbl.
Proof.
  unfold _glfw_qsort. rewrite merge_sort_Permutation. now rewrite take_drop.
Qed.

Lemma js_disconnect (jid : nat) (g : _GLFWlibrary) :
  js (disconnect jid g) = <[jid := js_zero]> (js g).
Proof. reflexivity. Qed.

(** A property of the table that the four elementary updates keep is kept
    by every call. *)
Section Preservation.

Variable I : list _GLFWjoystickLinux -> Prop.

Hypothesis I_open : forall tbl jid o p d,
  I tbl -> path_in_use tbl p = false -> free_jid tbl = Some jid ->
  I (<[jid := opened_slot o p d]> tbl).

Hypothesis I_event : forall tbl jid e j',
  handleEvent e (slot tbl jid) = Some j' -> I tbl -> I (<[jid := j']> tbl).

Hypothesis I_reset : forall tbl jid, I tbl -> I (<[jid := js_zero]> tbl).

Hypothesis I_perm : forall tbl tbl', tbl ≡ₚ tbl' -> I tbl -> I tbl'.

Lemma openJoystickDevice_keeps p g :
  I (js g) -> I (js (snd (openJoystickDevice p g))).
Proof.
  intros HI. destruct (openJoystickDevice_outcome p g); simpl; auto.
Qed.

Lemma hotplugEvents_keeps events g :
  I (js g) -> I (js (hotplugEvents events g)).
Proof.
  revert g. induction events as [|e events IH]; intros g HI; simpl; [assumption|].
  apply IH. destruct (regexec_js (ie_name e)); [|assumption].
  now apply openJoystickDevice_keeps.
Qed.

Lemma _glfwPollJoystickEvents_keeps g :
  I (js g) -> I (js (_glfwPollJoystickEvents g)).
Proof.
  intros HI. unfold _glfwPollJoystickEvents. now apply hotplugEvents_keeps.
Qed.

Lemma readEvents_keeps jid queue g :
  I (js g) -> I (js (snd (readEvents jid queue g))).
Proof.
  revert g. induction queue as [|[e|errno] queue IH]; intros g HI; simpl.
  - assumption.
  - apply IH. destruct (handleEvent e (slot (js g) jid)) as [j'|] eqn:E; simpl.
    + now apply I_event with e.
    + assumption.
  - destruct (errno =? ENODEV); [|assumption].
    rewrite js_disconnect. now apply I_reset.
Qed.

Lemma pollJoystickEvents_keeps jid g :
  I (js g) -> I (js (snd (pollJoystickEvents jid g))).
Proof.
  intros HI. unfold pollJoystickEvents.
  pose proof (_glfwPollJoystickEvents_keeps g HI) as H1.
  destruct (negb (present (slot (js (_glfwPollJoystickEvents g)) jid))); [assumption|].
  pose proof (readEvents_keeps jid
                (os_events (os (_glfwPollJoystickEvents g))
                           (fd (slot (js (_glfwPollJoystickEvents g)) jid)))
                _ H1) as H2.
  destruct (readEvents _ _ _) as [rest g2]. exact H2.
Qed.

Lemma scanDirectory_keeps entries count g :
  I (js g) -> I (js (snd (scanDirectory entries count g))).
Proof.
  revert count g. induction entries as [|n entries IH]; intros count g HI; simpl.
  - assumption.
  - destruct (regexec_js n); simpl; [|now apply IH].
    pose proof (openJoystickDevice_keeps (snprintf_path n) g HI) as H1.
    destruct (openJoystickDevice _ _) as [opened g1]. now apply IH.
Qed.

Lemma js_addWatch g : js (addWatch g) = js g.
Proof. unfold addWatch. now destruct (watch _ =? -1). Qed.

Lemma os_addWatch g : os (addWatch g) = os g.
Proof. unfold addWatch. now destruct (watch _ =? -1). Qed.

Lemma scanDevices_keeps g : I (js g) -> I (js (snd (scanDevices g))).
Proof.
  intros HI. unfold scanDevices.
  destruct (os_opendir (os g)); [now apply scanDirectory_keeps | assumption].
Qed.

Lemma _glfwInitJoysticksLinux_keeps g :
  I (js g) -> I (js (snd (_glfwInitJoysticksLinux g))).
Proof.
  intros HI. unfold _glfwInitJoysticksLinux.
  set (g0 := set_inotify (os_inotify_init1 (os g)) g).
  destruct (inotify g0 =? -1); [assumption|].
  destruct (negb (os_regcomp (os (addWatch g0)) =? 0)).
  - simpl. now rewrite js_addWatch.
  - assert (Hscan : I (js (snd (scanDevices (addWatch g0))))).
    { apply scanDevices_keeps. now rewrite js_addWatch. }
    destruct (scanDevices (addWatch g0)) as [count g2]. simpl in *.
    eapply I_perm; [|exact Hscan].
    symmetry. apply _glfw_qsort_Permutation.
Qed.

Lemma exec_keeps c g : I (js g) -> I (js (exec c g)).
Proof.
  intros HI. destruct c as [| |jid|jid|jid|jid|p|jid]; simpl.
  - now apply _glfwInitJoysticksLinux_keeps.
  - now apply _glfwPollJoystickEvents_keeps.
  - now apply pollJoystickEvents_keeps.
  - unfold _glfwPlatformGetJoystickAxes.
    pose proof (pollJoystickEvents_keeps jid g HI).
    destruct (pollJoystickEvents jid g) as [[] g1]; assumption.
  - unfold _glfwPlatformGetJoystickButtons.
    pose proof (pollJoystickEvents_keeps jid g HI).
    destruct (pollJoystickEvents jid g) as [[] g1]; assumption.
  - unfold _glfwPlatformGetJoystickName.
    pose proof (pollJoystickEvents_keeps jid g HI).
    destruct (pollJoystickEvents jid g) as [[] g1]; assumption.
  - now apply openJoystickDevice_keeps.
  - now apply pollJoystickEvents_keeps.
Qed.

Lemma reachable_keeps g :
  I (replicate (S GLFW_JOYSTICK_LAST) js_zero) -> reachable g -> I (js g).
Proof.
  intros Hstart Hg. induction Hg as [o|c g Hg IH|o g Hg IH]; simpl.
  - exact Hstart.
  - now apply exec_keeps.
  - exact IH.
Qed.

End Preservation.

(** *** The table keeps its size *)

Lemma table_ok_insert tbl jid j : table_ok tbl -> table_ok (<[jid := j]> tbl).
Proof. unfold table_ok. now rewrite length_insert. Qed.

Lemma table_ok_perm (tbl tbl' : list _GLFWjoystickLinux) :
  tbl ≡ₚ tbl' -> table_ok tbl -> table_ok tbl'.
Proof. unfold table_ok. now intros ->. Qed.

Lemma exec_table_ok c g : table_ok (js g) -> table_ok (js (exec c g)).
Proof.
  apply exec_keeps; eauto using table_ok_insert, table_ok_perm.
Qed.

Lemma reachable_table_ok g : reachable g -> table_ok (js g).
Proof.
  apply reachable_keeps; eauto using table_ok_insert, table_ok_perm.
  apply length_replicate.
Qed.

(** In no state the module reaches do the slots in use outnumber the
    table. *)
Lemma reachable_populated_bound g :
  reachable g -> (length (populated (js g)) <= S GLFW_JOYSTICK_LAST)%nat.
Proof.
  intros Hg. rewrite <- (reachable_table_ok g Hg). apply length_filter.
Qed.

(** *** Button arrays hold button states *)

Lemma button_value_state (value : Z) : button_state (button_value value).
Proof.
  unfold button_value, button_state. destruct (value =? 0); auto.
Qed.

Lemma calloc_buttons_released (count : Z) (l : list Z) :
  _glfw_calloc count GLFW_RELEASE = Some l -> Forall (fun b => b = GLFW_RELEASE) l.
Proof.
  unfold _glfw_calloc. destruct (count <? 0); [discriminate|].
  intros [= <-]. now apply Forall_replicate.
Qed.

Lemma opened_slot_buttons_boolean o p d : slot_buttons_boolean (opened_slot o p d).
Proof.
  intros l H. simpl in H. apply calloc_buttons_released in H.
  eapply Forall_impl; [exact H|]. intros b ->. now right.
Qed.

Lemma store_Some {A} (array : option (list A)) (number : Z) (v : A) l' :
  store array number v = Some l' ->
  exists l, array = Some l /\ 0 <= number < Z.of_nat (length l) /\
            l' = <[Z.to_nat number := v]> l.
Proof.
  unfold store. destruct array as [l|]; [|discriminate].
  destruct (Z.leb_spec 0 number); simpl; [|discriminate].
  destruct (Z.ltb_spec number (Z.of_nat (length l))); [|discriminate].
  intros [= <-]. exists l. repeat split; auto.
Qed.

Lemma store_inside {A} (l : list A) (number : Z) (v : A) :
  0 <= number < Z.of_nat (length l) ->
  store (Some l) number v = Some (<[Z.to_nat number := v]> l).
Proof.
  intros H. unfold store.
  destruct (Z.leb_spec 0 number); [|lia].
  destruct (Z.ltb_spec number (Z.of_nat (length l))); [reflexivity|lia].
Qed.

(** The three cases of a handled event. *)
Lemma handleEvent_Some e j j' :
  handleEvent e j = Some j' ->
  (clear_init (e_type e) = JS_EVENT_AXIS /\
   exists l, axes j = Some l /\ 0 <= e_number e < Z.of_nat (length l) /\
     j' = set_axes (Some (<[Z.to_nat (e_number e) := axis_value (e_value e)]> l)) j) \/
  (clear_init (e_type e) = JS_EVENT_BUTTON /\
   exists l, buttons j = Some l /\ 0 <= e_number e < Z.of_nat (length l) /\
     j' = set_buttons
            (Some (<[Z.to_nat (e_number e) := button_value (e_value e)]> l)) j) \/
  (clear_init (e_type e) <> JS_EVENT_AXIS /\
   clear_init (e_type e) <> JS_EVENT_BUTTON /\ j' = j).
Proof.
  unfold handleEvent.
  destruct (Z.eqb_spec (clear_init (e_type e)) JS_EVENT_AXIS) as [Ea|Ea].
  - destruct (store (axes j) _ _) as [l'|] eqn:E; [|discriminate].
    intros [= <-]. left. split; [assumption|].
    apply store_Some in E as (l & Hl & Hr & ->). eauto.
  - destruct (Z.eqb_spec (clear_init (e_type e)) JS_EVENT_BUTTON) as [Eb|Eb].
    + destruct (store (buttons j) _ _) as [l'|] eqn:E; [|discriminate].
      intros [= <-]. right. left. split; [assumption|].
      apply store_Some in E as (l & Hl & Hr & ->). eauto.
    + intros [= <-]. right. right. auto.
Qed.

Lemma handleEvent_buttons_boolean e j j' :
  handleEvent e j = Some j' ->
  slot_buttons_boolean j -> slot_buttons_boolean j'.
Proof.
  intros He Hj l.
  apply handleEvent_Some in He
    as [(_ & a & _ & _ & ->)|[(_ & b & Hb & _ & ->)|(_ & _ & ->)]]; simpl.
  - exact (Hj l).
  - intros [= <-]. apply Forall_insert; [exact (Hj b Hb) | apply button_value_state].
  - exact (Hj l).
Qed.

Lemma slot_Forall (P : _GLFWjoystickLinux -> Prop) tbl jid :
  P js_zero -> Forall P tbl -> P (slot tbl jid).
Proof.
  intros Hz Hall. unfold slot. destruct (tbl !! jid) as [j|] eqn:E; simpl.
  - eapply Forall_lookup_1; eauto.
  - exact Hz.
Qed.

Lemma js_zero_buttons_boolean : slot_buttons_boolean js_zero.
Proof. intros l. discriminate. Qed.

Lemma exec_buttons_boolean c g :
  buttons_boolean (js g) -> buttons_boolean (js (exec c g)).
Proof.
  apply exec_keeps; unfold buttons_boolean.
  - intros tbl jid o p d H _ _. apply Forall_insert; [assumption|].
    apply opened_slot_buttons_boolean.
  - intros tbl jid e j' He H. apply Forall_insert; [assumption|].
    apply (handleEvent_buttons_boolean e (slot tbl jid)); [assumption|].
    apply (slot_Forall slot_buttons_boolean); [apply js_zero_buttons_boolean | assumption].
  - intros tbl jid H. apply Forall_insert; [assumption|].
    apply js_zero_buttons_boolean.
  - intros tbl tbl' Hp H. now rewrite <- Hp.
Qed.

Lemma reachable_buttons_boolean g : reachable g -> buttons_boolean (js g).
Proof.
  intros Hg. induction Hg as [o|c g Hg IH|o g Hg IH].
  - change (Forall slot_buttons_boolean (replicate (S GLFW_JOYSTICK_LAST) js_zero)).
    apply Forall_replicate, js_zero_buttons_boolean.
  - now apply exec_buttons_boolean.
  - exact IH.
Qed.

(** *** Paths of the slots in use are distinct *)

Lemma populated_insert tbl jid j :
  (jid < length tbl)%nat ->
  populated (<[jid := j]> tbl)
  = populated (take jid tbl) ++ (if present j then [j] else [])
    ++ populated (drop (S jid) tbl).
Proof.
  intros Hlen. rewrite insert_take_drop by assumption.
  unfold populated. rewrite filter_app, filter_cons.
  destruct (decide (present j = true)) as [E|E].
  - now rewrite E.
  - apply not_true_is_false in E. now rewrite E.
Qed.

Lemma populated_split tbl jid :
  (jid < length tbl)%nat ->
  populated tbl
  = populated (take jid tbl) ++ (if present (slot tbl jid) then [slot tbl jid] else [])
    ++ populated (drop (S jid) tbl).
Proof.
  intros Hlen. rewrite <- populated_insert by assumption.
  rewrite list_insert_id; [reflexivity|].
  unfold slot. destruct (lookup_lt_is_Some_2 tbl jid Hlen) as [j ->]. reflexivity.
Qed.

Lemma populated_elem tbl j :
  j ∈ populated tbl ->
  present j = true /\ exists k, (k < length tbl)%nat /\ slot tbl k = j.
Proof.
  unfold populated. rewrite list_elem_of_filter. intros [Hp Hin].
  split; [assumption|].
  apply list_elem_of_lookup_1 in Hin as [k Hk]. exists k.
  split; [eapply lookup_lt_Some; eauto | now apply slot_lookup].
Qed.

Lemma populated_others tbl jid j :
  j ∈ populated (take jid tbl) ++ populated (drop (S jid) tbl) ->
  j ∈ populated tbl.
Proof.
  unfold populated. rewrite elem_of_app, !list_elem_of_filter.
  intros [[Hp Hin]|[Hp Hin]]; split; auto.
  - now apply (subseteq_take jid tbl).
  - now apply (subseteq_drop (S jid) tbl).
Qed.

Lemma distinct_paths_insert tbl jid j :
  (jid < length tbl)%nat ->
  distinct_paths tbl ->
  (present j = true ->
   forall j', j' ∈ populated (take jid tbl) ++ populated (drop (S jid) tbl) ->
              path_key j' <> path_key j) ->
  distinct_paths (<[jid := j]> tbl).
Proof.
  unfold distinct_paths. intros Hlen Hnd Hnew.
  rewrite populated_insert by assumption.
  rewrite (populated_split tbl jid Hlen) in Hnd.
  rewrite !fmap_app in *.
  assert (Hrest : NoDup ((path_key <$> populated (take jid tbl))
                         ++ (path_key <$> populated (drop (S jid) tbl)))).
  { destruct (present (slot tbl jid)); simpl in Hnd; [|exact Hnd].
    rewrite <- Permutation_middle in Hnd. now apply NoDup_cons in Hnd as [_ H]. }
  destruct (present j); simpl; [|exact Hrest].
  rewrite <- Permutation_middle. apply NoDup_cons. split; [|exact Hrest].
  rewrite <- fmap_app. intros Hin.
  apply list_elem_of_fmap in Hin as (j' & Hkey & Hin).
  now apply (Hnew eq_refl j' Hin).
Qed.

Lemma table_distinct_open tbl jid o p d :
  table_distinct tbl -> path_in_use tbl p = false -> free_jid tbl = Some jid ->
  table_distinct (<[jid := opened_slot o p d]> tbl).
Proof.
  intros [Hok Hnd] Hin Hfree. split; [now apply table_ok_insert|].
  apply free_jid_Some in Hfree as (Hr & Hp & _).
  assert (Hlen : (jid < length tbl)%nat) by (rewrite Hok; lia).
  apply distinct_paths_insert; auto.
  intros _ j' Hj'. apply populated_others, populated_elem in Hj' as (Hp' & k & Hk & <-).
  unfold path_key. simpl. rewrite <- strcmp_zero_iff.
  apply path_in_use_false; auto. unfold table_ok in Hok. lia.
Qed.

Lemma table_distinct_same tbl jid j :
  table_distinct tbl ->
  (present j = true ->
   present (slot tbl jid) = true /\ path j = path (slot tbl jid)) ->
  table_distinct (<[jid := j]> tbl).
Proof.
  intros [Hok Hnd] Hsame. split; [now apply table_ok_insert|].
  destruct (Nat.lt_ge_cases jid (length tbl)) as [Hlen|Hlen].
  2: { now rewrite list_insert_ge. }
  apply distinct_paths_insert; auto.
  intros Hp j' Hj'. destruct (Hsame Hp) as [Hp0 Hpath].
  unfold distinct_paths in Hnd. rewrite (populated_split tbl jid Hlen), Hp0 in Hnd.
  rewrite !fmap_app in Hnd. simpl in Hnd. rewrite <- Permutation_middle in Hnd.
  apply NoDup_cons in Hnd as [Hnot _].
  intros Hkey. apply Hnot. rewrite <- fmap_app.
  apply list_elem_of_fmap. exists j'. split; [|assumption].
  rewrite Hkey. unfold path_key, path_str. now rewrite Hpath.
Qed.

Lemma handleEvent_same e j j' :
  handleEvent e j = Some j' ->
  present j' = present j /\ path j' = path j /\
  fd j' = fd j /\ name j' = name j /\
  axisCount j' = axisCount j /\
  buttonCount j' = buttonCount j.
Proof.
  intros He.
  apply handleEvent_Some in He
    as [(_ & a & _ & _ & ->)|[(_ & b & _ & _ & ->)|(_ & _ & ->)]]; now simpl.
Qed.

Lemma exec_table_distinct c g :
  table_distinct (js g) -> table_distinct (js (exec c g)).
Proof.
  apply exec_keeps.
  - apply table_distinct_open.
  - intros tbl jid e j' He H. apply table_distinct_same; [assumption|].
    destruct (handleEvent_same e (slot tbl jid) j' He) as (-> & -> & _). auto.
  - intros tbl jid H. apply table_distinct_same; [assumption | discriminate].
  - intros tbl tbl' Hp [Hok Hnd]. split; [now apply (table_ok_perm tbl)|].
    unfold distinct_paths, populated in *. now rewrite <- Hp.
Qed.

Lemma reachable_table_distinct g : reachable g -> table_distinct (js g).
Proof.
  intros Hg. induction Hg as [o|c g Hg IH|o g Hg IH]; simpl.
  - split; [reflexivity|]. vm_compute. constructor.
  - now apply exec_table_distinct.
  - exact IH.
Qed.

(** Distinctness, slot by slot. *)
Lemma distinct_paths_slots tbl i k :
  distinct_paths tbl -> i <> k ->
  present (slot tbl i) = true -> present (slot tbl k) = true ->
  _glfw_strcmp (path_str (slot tbl i)) (path_str (slot tbl k)) <> 0.
Proof.
  intros Hnd Hne Hi Hk Hcmp. apply strcmp_zero_iff in Hcmp.
  assert (Hwlog : forall a b, (a < b)%nat ->
            present (slot tbl a) = true -> present (slot tbl b) = true ->
            path_key (slot tbl a) = path_key (slot tbl b) -> False).
  { clear i k Hne Hi Hk Hcmp. intros a b Hab Ha Hb Hkey.
    pose proof (slot_present_lookup _ _ Ha) as La.
    pose proof (slot_present_lookup _ _ Hb) as Lb.
    assert (Hlen : (a < length tbl)%nat) by (eapply lookup_lt_Some; eauto).
    unfold distinct_paths in Hnd. rewrite (populated_split tbl a Hlen), Ha in Hnd.
    rewrite !fmap_app in Hnd. simpl in Hnd.
    apply NoDup_app in Hnd as (_ & _ & Hnd). apply NoDup_cons in Hnd as [Hnot _].
    apply Hnot. rewrite Hkey. apply list_elem_of_fmap_2.
    unfold populated. apply list_elem_of_filter. split; [assumption|].
    apply list_elem_of_lookup. exists (b - S a)%nat.
    rewrite lookup_drop. replace (S a + (b - S a))%nat with b by lia. exact Lb. }
  destruct (Nat.lt_total i k) as [H|[H|H]]; [|contradiction|].
  - exact (Hwlog i k H Hi Hk Hcmp).
  - exact (Hwlog k i H Hk Hi (eq_sym Hcmp)).
Qed.

(** ** Distinct device paths *)

(** C9. No two slots in use hold the same device path. When a slot in use
    already holds [p], [openJoystickDevice] returns false and the state is
    untouched: no [open] call, no slot written, no notification. Every call
    keeps the paths of the slots in use pairwise distinct, and they are so
    in every state the module reaches. *)
Theorem device_paths_distinct :
  (forall p g jid,
     (jid <= GLFW_JOYSTICK_LAST)%nat ->
     present (slot (js g) jid) = true ->
     _glfw_strcmp (path_str (slot (js g) jid)) p = 0 ->
     openJoystickDevice p g = (false, g)) /\
  (forall c g, table_distinct (js g) -> table_distinct (js (exec c g))) /\
  (forall g i k,
     reachable g -> i <> k ->
     present (slot (js g) i) = true -> present (slot (js g) k) = true ->
     _glfw_strcmp (path_str (slot (js g) i)) (path_str (slot (js g) k)) <> 0).
Proof.
  split; [|split].
  - intros p g jid Hr Hp Hc. unfold openJoystickDevice.
    replace (path_in_use (js g) p) with true; [reflexivity|].
    symmetry. apply path_in_use_true. eauto.
  - exact exec_table_distinct.
  - intros g i k Hg. apply distinct_paths_slots.
    now apply reachable_table_distinct.
Qed.

(** On the sample system: js1 is not opened a second time. *)
Lemma device_paths_distinct_witness :
  present (slot (js Sample.started) 1) = true /\
  _glfw_strcmp (path_str (slot (js Sample.started) 1)) "/dev/input/js1" = 0 /\
  openJoystickDevice "/dev/input/js1" Sample.started = (false, Sample.started).
Proof.
  split; [reflexivity|]. split; [reflexivity|].
  apply (proj1 device_paths_distinct "/dev/input/js1" Sample.started 1%nat).
  - unfold GLFW_JOYSTICK_LAST. lia.
  - reflexivity.
  - reflexivity.
Defined.

(** ** What a call leaves alone *)

(** What [openJoystickDevice] never writes. *)
Lemma openJoystickDevice_frame p g :
  let g' := snd (openJoystickDevice p g) in
  os g' = os g /\ input_errors g' = input_errors g /\
  inotify g' = inotify g /\ watch g' = watch g.
Proof.
  destruct (openJoystickDevice_outcome p g); simpl; auto.
Qed.

(** [openJoystickDevice] releases nothing and stores into no array. *)
Lemma openJoystickDevice_safe p g :
  released (snd (openJoystickDevice p g)) = released g /\
  faulted (snd (openJoystickDevice p g)) = faulted g.
Proof.
  destruct (openJoystickDevice_outcome p g); simpl; auto.
Qed.

Lemma hotplugEvents_frame events g :
  os (hotplugEvents events g) = os g /\
  released (hotplugEvents events g) = released g /\
  faulted (hotplugEvents events g) = faulted g.
Proof.
  revert g. induction events as [|e events IH]; intros g; simpl; [auto|].
  destruct (regexec_js (ie_name e)); [|apply IH].
  destruct (IH (snd (openJoystickDevice (snprintf_path (ie_name e)) g)))
    as (-> & -> & ->).
  destruct (openJoystickDevice_frame (snprintf_path (ie_name e)) g) as (-> & _).
  destruct (openJoystickDevice_safe (snprintf_path (ie_name e)) g) as (-> & ->).
  auto.
Qed.

Lemma openJoystickDevice_adds p g :
  table_ok (js g) ->
  (forall k, present (slot (js g) k) = true ->
             slot (js (snd (openJoystickDevice p g))) k = slot (js g) k) /\
  exists news,
    joystick_changes (snd (openJoystickDevice p g)) = joystick_changes g ++ news /\
    Forall (fun c => snd c = GLFW_CONNECTED) news.
Proof.
  intros Hok.
  destruct (openJoystickDevice_outcome p g)
    as [| | | |jid d Hin Hfree Hd Hne Hv]; simpl;
    try (split; [auto | exists []; rewrite app_nil_r; split; [reflexivity | constructor]]).
  apply free_jid_Some in Hfree as (Hr & Hp & _). split.
  - intros k Hk. apply slot_insert_ne. intros ->. congruence.
  - exists [(jid, GLFW_CONNECTED)]. split; [reflexivity|].
    constructor; [reflexivity | constructor].
Qed.

Lemma hotplugEvents_adds events g :
  table_ok (js g) ->
  (forall k, present (slot (js g) k) = true ->
             slot (js (hotplugEvents events g)) k = slot (js g) k) /\
  exists news,
    joystick_changes (hotplugEvents events g) = joystick_changes g ++ news /\
    Forall (fun c => snd c = GLFW_CONNECTED) news.
Proof.
  revert g. induction events as [|e events IH]; intros g Hok; simpl.
  - split; [auto|]. exists []. rewrite app_nil_r. split; [reflexivity | constructor].
  - destruct (regexec_js (ie_name e)); [|now apply IH].
    destruct (openJoystickDevice_adds (snprintf_path (ie_name e)) g Hok)
      as (Hkeep1 & news1 & Hlog1 & Hall1).
    destruct (IH (snd (openJoystickDevice (snprintf_path (ie_name e)) g))
                 (exec_table_ok (OpenJoystickDevice (snprintf_path (ie_name e))) g Hok))
      as (Hkeep2 & news2 & Hlog2 & Hall2).
    split.
    + intros k Hk. rewrite Hkeep2; [now apply Hkeep1|].
      rewrite Hkeep1; assumption.
    + exists (news1 ++ news2). rewrite Hlog2, Hlog1, app_assoc.
      split; [reflexivity | now apply Forall_app].
Qed.

(** ** The poller *)

Lemma applyEvents_same events j :
  present (applyEvents events j) = present j /\
  path (applyEvents events j) = path j /\
  fd (applyEvents events j) = fd j /\
  name (applyEvents events j) = name j /\
  axisCount (applyEvents events j) = axisCount j /\
  buttonCount (applyEvents events j) = buttonCount j.
Proof.
  revert j. induction events as [|e events IH]; intros j; simpl; [tauto|].
  destruct (handleEvent e j) as [j'|] eqn:E; simpl; [|apply IH].
  destruct (IH j') as (-> & -> & -> & -> & -> & ->).
  now apply (handleEvent_same e).
Qed.

(** The read loop: the events before the first failure are applied in
    order, the failure ends the loop, and only [ENODEV] releases and
    resets the slot and tells the host. An event whose store is not
    defined sets [faulted]. The remaining fields of the state are not
    written. *)
Lemma readEvents_first_failure jid queue g events errno rest :
  (jid < length (js g))%nat ->
  first_failure queue = (events, errno, rest) ->
  exists g',
    readEvents jid queue g = (rest, g') /\
    js g' = <[jid := if errno =? ENODEV then js_zero
                     else applyEvents events (slot (js g) jid)]> (js g) /\
    joystick_changes g'
    = joystick_changes g
      ++ (if errno =? ENODEV then [(jid, GLFW_DISCONNECTED)] else []) /\
    os g' = os g /\ fd_calls g' = fd_calls g /\ input_errors g' = input_errors g /\
    inotify g' = inotify g /\ watch g' = watch g /\
    released g'
    = released g
      ++ (if errno =? ENODEV
          then [FreeAxes jid; FreeButtons jid; FreeName jid; FreePath jid]
          else []) /\
    faulted g' = faulted g || negb (events_defined events (slot (js g) jid)).
Proof.
  revert g events. induction queue as [|[e|err] queue IH]; intros g events Hlen; simpl.
  - intros [= <- <- <-]. exists g. simpl. rewrite !app_nil_r, orb_false_r.
    repeat split; auto. symmetry. apply list_insert_id.
    unfold slot. destruct (lookup_lt_is_Some_2 _ _ Hlen) as [j ->]. reflexivity.
  - destruct (first_failure queue) as [[events' errno'] rest'] eqn:E.
    intros [= <- <- <-]. simpl.
    destruct (handleEvent e (slot (js g) jid)) as [j'|] eqn:He.
    + destruct (IH (set_js (<[jid := j']> (js g)) g) events')
        as (g' & Hrun & Hjs & Hlog & Hos & Hfd & Herr & Hin & Hw & Hrel & Hf).
      { simpl. now rewrite length_insert. }
      { reflexivity. }
      exists g'. split; [exact Hrun|]. simpl in *.
      rewrite slot_insert_eq in Hjs, Hf by assumption.
      rewrite list_insert_insert_eq in Hjs.
      repeat split; assumption.
    + destruct (IH (set_faulted g) events')
        as (g' & Hrun & Hjs & Hlog & Hos & Hfd & Herr & Hin & Hw & Hrel & Hf).
      { exact Hlen. }
      { reflexivity. }
      exists g'. split; [exact Hrun|]. simpl in *.
      rewrite Hf, orb_true_r. repeat split; assumption.
  - intros [= <- <- <-]. simpl. rewrite orb_false_r.
    destruct (err =? ENODEV).
    + exists (disconnect jid g). simpl. repeat split; auto.
    + exists g. simpl. rewrite !app_nil_r. repeat split; auto.
      symmetry. apply list_insert_id.
      unfold slot. destruct (lookup_lt_is_Some_2 _ _ Hlen) as [j ->]. reflexivity.
Qed.

(** A poll of a slot that is in use when [pollJoystickEvents] is called,
    in terms of the state before the call. The hot-plug step reports
    connections only and leaves the slots in use alone. *)
Lemma pollJoystickEvents_in_use jid g events errno rest :
  table_ok (js g) ->
  present (slot (js g) jid) = true ->
  first_failure (os_events (os g) (fd (slot (js g) jid))) = (events, errno, rest) ->
  exists g' news,
    pollJoystickEvents jid g = (present (slot (js g') jid), g') /\
    os_events (os g') (fd (slot (js g) jid)) = rest /\
    slot (js g') jid
    = (if errno =? ENODEV then js_zero else applyEvents events (slot (js g) jid)) /\
    (forall k, k <> jid -> present (slot (js g) k) = true ->
               slot (js g') k = slot (js g) k) /\
    Forall (fun c => snd c = GLFW_CONNECTED) news /\
    joystick_changes g'
    = joystick_changes g ++ news
      ++ (if errno =? ENODEV then [(jid, GLFW_DISCONNECTED)] else []) /\
    released g'
    = released g
      ++ (if errno =? ENODEV
          then [FreeAxes jid; FreeButtons jid; FreeName jid; FreePath jid]
          else []) /\
    faulted g' = faulted g || negb (events_defined events (slot (js g) jid)).
Proof.
  intros Hok Hp Hq. unfold pollJoystickEvents.
  set (g1 := _glfwPollJoystickEvents g).
  destruct (hotplugEvents_adds (os_inotify (os g))
              (set_os (set_inotify_events [] (os g)) g) Hok)
    as (Hkeep & news & Hlog1 & Hnews).
  destruct (hotplugEvents_frame (os_inotify (os g))
              (set_os (set_inotify_events [] (os g)) g))
    as (Hos1 & Hrel1 & Hf1).
  fold (_glfwPollJoystickEvents g) in Hkeep, Hlog1, Hos1, Hrel1, Hf1.
  fold g1 in Hkeep, Hlog1, Hos1, Hrel1, Hf1. simpl in *.
  assert (Hslot1 : slot (js g1) jid = slot (js g) jid) by now apply Hkeep.
  assert (Hq1 : os_events (os g1) (fd (slot (js g) jid))
                = os_events (os g) (fd (slot (js g) jid))).
  { now rewrite Hos1. }
  cbv zeta. rewrite Hslot1, Hp. simpl. rewrite Hq1.
  assert (Hlen : (jid < length (js g1))%nat).
  { rewrite <- Hslot1 in Hp. apply slot_present_lookup in Hp.
    eapply lookup_lt_Some; eauto. }
  destruct (readEvents_first_failure jid _ g1 events errno rest Hlen Hq)
    as (g2 & Hrun & Hjs & Hlog & Hos & _ & _ & _ & _ & Hrel & Hf).
  rewrite Hrun.
  exists (set_os (set_events (fd (slot (js g) jid)) rest (os g2)) g2), news.
  simpl. split; [reflexivity|]. rewrite Z.eqb_refl. split; [reflexivity|].
  rewrite Hjs, Hlog, Hrel, Hf, Hslot1, Hlog1, Hrel1, Hf1.
  rewrite slot_insert_eq by assumption. rewrite <- app_assoc.
  repeat split; auto.
  intros k Hk Hpk. rewrite slot_insert_ne by assumption. now apply Hkeep.
Qed.

(** C1, as the code has it. Let the slot be in use when
    [pollJoystickEvents] is called and let every event queued before the
    first failed read address an element inside the arrays of the slot.
    Then the queue of the descriptor is read up to and including the first
    failure, and what follows it is left for later. If the failure is
    [ENODEV], the axes, the buttons, the name and the path of the slot are
    released, the slot is zeroed, present is false, and the notifications
    of the call end with the single [(jid, GLFW_DISCONNECTED)], all others
    being connections of devices the hot-plug step found. On any other
    failure the slot holds the events read so far; its present flag,
    descriptor, name, path and counts are as before the call, nothing is
    released, and no disconnection is reported. Every other slot in use is
    as before the call, and the result is the present flag of the slot
    after the call. *)
Theorem pollJoystickEvents_first_failure
  (jid : nat) (g : _GLFWlibrary)
  (events : list js_event) (errno : Z) (rest : list read_result) :
  table_ok (js g) ->
  faulted g = false ->
  present (slot (js g) jid) = true ->
  first_failure (os_events (os g) (fd (slot (js g) jid))) = (events, errno, rest) ->
  events_defined events (slot (js g) jid) = true ->
  exists g' news,
    pollJoystickEvents jid g = (present (slot (js g') jid), g') /\
    os_events (os g') (fd (slot (js g) jid)) = rest /\
    faulted g' = false /\
    Forall (fun c => snd c = GLFW_CONNECTED) news /\
    (forall k, k <> jid -> present (slot (js g) k) = true ->
               slot (js g') k = slot (js g) k) /\
    (errno = ENODEV ->
     slot (js g') jid = js_zero /\
     present (slot (js g') jid) = false /\
     released g'
     = released g ++ [FreeAxes jid; FreeButtons jid; FreeName jid; FreePath jid] /\
     joystick_changes g'
     = joystick_changes g ++ news ++ [(jid, GLFW_DISCONNECTED)]) /\
    (errno <> ENODEV ->
     slot (js g') jid = applyEvents events (slot (js g) jid) /\
     present (slot (js g') jid) = true /\
     fd (slot (js g') jid) = fd (slot (js g) jid) /\
     name (slot (js g') jid) = name (slot (js g) jid) /\
     path (slot (js g') jid) = path (slot (js g) jid) /\
     axisCount (slot (js g') jid) = axisCount (slot (js g) jid) /\
     buttonCount (slot (js g') jid) = buttonCount (slot (js g) jid) /\
     released g' = released g /\
     joystick_changes g' = joystick_changes g ++ news).
Proof.
  intros Hok Hsafe Hp Hq Hdef.
  destruct (pollJoystickEvents_in_use jid g events errno rest Hok Hp Hq)
    as (g' & news & Hrun & Hrest & Hslot & Hothers & Hnews & Hlog & Hrel & Hf).
  exists g', news. rewrite Hsafe, Hdef in Hf.
  split; [exact Hrun|]. split; [exact Hrest|]. split; [exact Hf|].
  split; [exact Hnews|]. split; [exact Hothers|]. split.
  - intros ->. rewrite Z.eqb_refl in *. rewrite Hslot. auto.
  - intros Hne. apply Z.eqb_neq in Hne. rewrite Hne in *.
    rewrite !app_nil_r in *. rewrite Hslot.
    destruct (applyEvents_same events (slot (js g) jid))
      as (-> & -> & -> & -> & -> & ->).
    repeat split; auto.
Qed.

(** On the sample system: js0 delivers two events and is then removed;
    the outcome queued behind the failure is left for the next call. *)
Lemma pollJoystickEvents_first_failure_witness :
  table_ok (js Sample.unplugging) /\
  faulted Sample.unplugging = false /\
  present (slot (js Sample.unplugging) 0) = true /\
  events_defined [mkEvent 32767 0x82 1; mkEvent 1 0x01 2]
                 (slot (js Sample.unplugging) 0) = true /\
  exists g',
    pollJoystickEvents 0 Sample.unplugging = (false, g') /\
    os_events (os g') 5 = [ReadEvent (mkEvent 0 0x01 2)] /\
    slot (js g') 0 = js_zero /\
    released g' = [FreeAxes 0; FreeButtons 0; FreeName 0; FreePath 0] /\
    exists news,
      joystick_changes g'
      = joystick_changes Sample.unplugging ++ news ++ [(0%nat, GLFW_DISCONNECTED)].
Proof.
  split; [reflexivity|]. split; [reflexivity|]. split; [reflexivity|].
  split; [reflexivity|].
  destruct (pollJoystickEvents_first_failure 0 Sample.unplugging
              [mkEvent 32767 0x82 1; mkEvent 1 0x01 2] ENODEV
              [ReadEvent (mkEvent 0 0x01 2)]
              eq_refl eq_refl eq_refl eq_refl eq_refl)
    as (g' & news & Hrun & Hrest & _ & _ & _ & Hgone & _).
  destruct (Hgone eq_refl) as (Hzero & Hp & Hrel & Hlog).
  exists g'. rewrite Hp in Hrun. repeat split; try assumption.
  exists news. exact Hlog.
Defined.

(** C1, as stated, fails in two places. A slot that is not in use is not
    read: with [ENODEV] waiting on its descriptor, the call returns false,
    leaves the queue alone, releases nothing and reports no disconnection.
    And an event that addresses an element outside the arrays of the slot
    (button 7 of a device with three buttons) is stored where the button
    array is not: the store has no defined behaviour, so nothing is known
    of the slot afterwards. *)
Lemma pollJoystickEvents_slot_not_in_use :
  (present (slot (js Sample.detached) 3) = false /\
   os_events (os Sample.detached) (fd (slot (js Sample.detached) 3))
   = [ReadError ENODEV] /\
   fst (pollJoystickEvents 3 Sample.detached) = false /\
   os_events (os (snd (pollJoystickEvents 3 Sample.detached)))
             (fd (slot (js Sample.detached) 3))
   = [ReadError ENODEV] /\
   released (snd (pollJoystickEvents 3 Sample.detached)) = [] /\
   joystick_changes (snd (pollJoystickEvents 3 Sample.detached)) = []) /\
  (present (slot (js Sample.stray) 0) = true /\
   buttonCount (slot (js Sample.stray) 0) = 3 /\
   first_failure (os_events (os Sample.stray) (fd (slot (js Sample.stray) 0)))
   = ([mkEvent 1 0x01 7], EAGAIN, []) /\
   handleEvent (mkEvent 1 0x01 7) (slot (js Sample.stray) 0) = None /\
   faulted Sample.stray = false /\
   faulted (snd (pollJoystickEvents 0 Sample.stray)) = true).
Proof.
  repeat split; reflexivity.
Qed.

(** ** Button states *)

(** The two type bytes of a button event: with and without the
    initial-state bit. *)
Lemma clear_init_button (type : Z) :
  type = JS_EVENT_BUTTON \/ type = Z.lor JS_EVENT_BUTTON JS_EVENT_INIT ->
  clear_init type = JS_EVENT_BUTTON.
Proof. intros [->| ->]; reflexivity. Qed.

Lemma handleEvent_button e j l :
  clear_init (e_type e) = JS_EVENT_BUTTON ->
  buttons j = Some l ->
  0 <= e_number e < Z.of_nat (length l) ->
  handleEvent e j
  = Some (set_buttons
            (Some (<[Z.to_nat (e_number e) := button_value (e_value e)]> l)) j).
Proof.
  intros Ht Hl Hn. unfold handleEvent. rewrite Ht. simpl.
  rewrite Hl, store_inside by assumption. reflexivity.
Qed.

(** Every call hands [faulted] on: once set it stays set. *)
Lemma readEvents_faulted jid queue g :
  faulted g = true -> faulted (snd (readEvents jid queue g)) = true.
Proof.
  revert g. induction queue as [|[e|errno] queue IH]; intros g Hf; simpl.
  - assumption.
  - apply IH. now destruct (handleEvent e (slot (js g) jid)).
  - now destruct (errno =? ENODEV).
Qed.

Lemma pollJoystickEvents_faulted jid g :
  faulted g = true -> faulted (snd (pollJoystickEvents jid g)) = true.
Proof.
  intros Hf. unfold pollJoystickEvents.
  assert (H1 : faulted (_glfwPollJoystickEvents g) = true).
  { unfold _glfwPollJoystickEvents.
    destruct (hotplugEvents_frame (os_inotify (os g))
                (set_os (set_inotify_events [] (os g)) g)) as (_ & _ & ->).
    exact Hf. }
  destruct (negb (present (slot (js (_glfwPollJoystickEvents g)) jid)));
    [exact H1|].
  pose proof (readEvents_faulted jid
                (os_events (os (_glfwPollJoystickEvents g))
                           (fd (slot (js (_glfwPollJoystickEvents g)) jid)))
                _ H1) as H2.
  destruct (readEvents _ _ _) as [rest g2]. exact H2.
Qed.

Lemma scanDirectory_faulted entries count g :
  faulted (snd (scanDirectory entries count g)) = faulted g.
Proof.
  revert count g. induction entries as [|n entries IH]; intros count g; simpl;
    [reflexivity|].
  destruct (regexec_js n); simpl; [|apply IH].
  destruct (openJoystickDevice_safe (snprintf_path n) g) as (_ & <-).
  destruct (openJoystickDevice (snprintf_path n) g) as [opened g1]. apply IH.
Qed.

Lemma _glfwInitJoysticksLinux_faulted g :
  faulted (snd (_glfwInitJoysticksLinux g)) = faulted g.
Proof.
  unfold _glfwInitJoysticksLinux.
  set (g0 := set_inotify (os_inotify_init1 (os g)) g).
  assert (Hadd : faulted (addWatch g0) = faulted g).
  { unfold addWatch. now destruct (watch _ =? -1). }
  destruct (inotify g0 =? -1); [reflexivity|].
  destruct (negb (os_regcomp (os (addWatch g0)) =? 0)); [exact Hadd|].
  assert (Hscan : faulted (snd (scanDevices (addWatch g0))) = faulted g).
  { unfold scanDevices. destruct (os_opendir _); simpl; [|exact Hadd].
    now rewrite scanDirectory_faulted. }
  destruct (scanDevices (addWatch g0)) as [count g2]. exact Hscan.
Qed.

Lemma exec_faulted c g : faulted g = true -> faulted (exec c g) = true.
Proof.
  intros Hf. destruct c as [| |jid|jid|jid|jid|p|jid]; simpl.
  - now rewrite _glfwInitJoysticksLinux_faulted.
  - unfold _glfwPollJoystickEvents.
    destruct (hotplugEvents_frame (os_inotify (os g))
                (set_os (set_inotify_events [] (os g)) g)) as (_ & _ & ->).
    exact Hf.
  - now apply pollJoystickEvents_faulted.
  - unfold _glfwPlatformGetJoystickAxes.
    pose proof (pollJoystickEvents_faulted jid g Hf).
    destruct (pollJoystickEvents jid g) as [[] g1]; assumption.
  - unfold _glfwPlatformGetJoystickButtons.
    pose proof (pollJoystickEvents_faulted jid g Hf).
    destruct (pollJoystickEvents jid g) as [[] g1]; assumption.
  - unfold _glfwPlatformGetJoystickName.
    pose proof (pollJoystickEvents_faulted jid g Hf).
    destruct (pollJoystickEvents jid g) as [[] g1]; assumption.
  - now destruct (openJoystickDevice_safe p g) as (_ & ->).
  - now apply pollJoystickEvents_faulted.
Qed.

(** C7, as the code has it. While no store outside an array has been
    attempted, every element of the button array of a slot in use is
    [GLFW_PRESS] or [GLFW_RELEASE] in every state the module reaches, and
    every call that attempts no such store keeps it so. The array a
    successful [openJoystickDevice] allocates is what [_glfw_calloc]
    returns for the button count and holds [GLFW_RELEASE] throughout. A
    button event (type [JS_EVENT_BUTTON], with or without
    [JS_EVENT_INIT]) whose number lies inside the button array stores
    [GLFW_PRESS] at its index when its value is not zero and
    [GLFW_RELEASE] when it is zero, and leaves the other elements alone;
    so does [pollJoystickEvents] when it reads such an event from the
    descriptor of a slot in use. *)
Theorem button_states_boolean :
  (forall g jid l,
     reachable g -> faulted g = false ->
     present (slot (js g) jid) = true ->
     buttons (slot (js g) jid) = Some l ->
     Forall (fun b => b = GLFW_PRESS \/ b = GLFW_RELEASE) l) /\
  (forall c g,
     faulted (exec c g) = false ->
     buttons_boolean (js g) -> buttons_boolean (js (exec c g))) /\
  (forall p g g',
     table_ok (js g) -> openJoystickDevice p g = (true, g') ->
     exists jid,
       present (slot (js g) jid) = false /\ present (slot (js g') jid) = true /\
       buttons (slot (js g') jid)
       = _glfw_calloc (os_buttons (os g) (os_open (os g) p)) GLFW_RELEASE /\
       forall l, buttons (slot (js g') jid) = Some l ->
                 Forall (fun b => b = GLFW_RELEASE) l) /\
  (forall e j l,
     e_type e = JS_EVENT_BUTTON \/ e_type e = Z.lor JS_EVENT_BUTTON JS_EVENT_INIT ->
     buttons j = Some l ->
     (0 <= e_number e < Z.of_nat (length l)) ->
     exists j' l',
       handleEvent e j = Some j' /\
       buttons j' = Some l' /\
       length l' = length l /\
       (e_value e <> 0 -> l' !! Z.to_nat (e_number e) = Some GLFW_PRESS) /\
       (e_value e = 0 -> l' !! Z.to_nat (e_number e) = Some GLFW_RELEASE) /\
       (forall i, i <> Z.to_nat (e_number e) -> l' !! i = l !! i)) /\
  (forall jid g e l,
     table_ok (js g) ->
     present (slot (js g) jid) = true ->
     os_events (os g) (fd (slot (js g) jid)) = [ReadEvent e] ->
     e_type e = JS_EVENT_BUTTON \/ e_type e = Z.lor JS_EVENT_BUTTON JS_EVENT_INIT ->
     buttons (slot (js g) jid) = Some l ->
     (0 <= e_number e < Z.of_nat (length l)) ->
     fst (pollJoystickEvents jid g) = true /\
     buttons (slot (js (snd (pollJoystickEvents jid g))) jid)
     = Some (<[Z.to_nat (e_number e) :=
                 if e_value e =? 0 then GLFW_RELEASE else GLFW_PRESS]> l) /\
     faulted (snd (pollJoystickEvents jid g)) = faulted g).
Proof.
  split; [|split; [|split; [|split]]].
  - intros g jid l Hg _ Hp Hl.
    pose proof (reachable_buttons_boolean g Hg) as Hall.
    apply (slot_Forall slot_buttons_boolean _ jid js_zero_buttons_boolean Hall l Hl).
  - intros c g _. apply exec_buttons_boolean.
  - intros p g g' Hok Hrun.
    destruct (openJoystickDevice_opened p g g' Hok Hrun)
      as (jid & Hfree & _ & Hslot & _).
    apply free_jid_Some in Hfree as (_ & Hfree & _).
    exists jid. rewrite Hslot. simpl. repeat split; auto.
    intros l. apply calloc_buttons_released.
  - intros e j l Ht Hl Hn. apply clear_init_button in Ht.
    exists (set_buttons
              (Some (<[Z.to_nat (e_number e) := button_value (e_value e)]> l)) j),
           (<[Z.to_nat (e_number e) := button_value (e_value e)]> l).
    rewrite (handleEvent_button e j l Ht Hl Hn).
    assert (Hlen : (Z.to_nat (e_number e) < length l)%nat) by lia.
    unfold button_value. repeat split.
    + apply length_insert.
    + intros Hv. rewrite list_lookup_insert_eq by assumption.
      destruct (Z.eqb_spec (e_value e) 0); [contradiction | reflexivity].
    + intros ->. now rewrite list_lookup_insert_eq.
    + intros i Hi. now apply list_lookup_insert_ne.
  - intros jid g e l Hok Hp Hq Ht Hl Hn. apply clear_init_button in Ht.
    destruct (pollJoystickEvents_in_use jid g [e] EAGAIN [] Hok Hp)
      as (g' & news & Hrun & _ & Hslot & _ & _ & _ & _ & Hf).
    { now rewrite Hq. }
    rewrite Hrun. simpl in *.
    rewrite (handleEvent_button e _ l Ht Hl Hn) in Hslot, Hf. simpl in *.
    rewrite Hslot, Hf, orb_false_r. simpl. rewrite Hp. repeat split.
Qed.

(** On the sample system: js0 reports that button 2 is down. *)
Lemma button_states_boolean_witness :
  table_ok (js Sample.pressing) /\
  present (slot (js Sample.pressing) 0) = true /\
  buttons (slot (js Sample.pressing) 0) = Some [0; 0; 0] /\
  buttons (slot (js (snd (pollJoystickEvents 0 Sample.pressing))) 0)
  = Some [0; 0; GLFW_PRESS].
Proof.
  split; [reflexivity|]. split; [reflexivity|]. split; [reflexivity|].
  destruct (proj2 (proj2 (proj2 (proj2 button_states_boolean)))
              0%nat Sample.pressing (mkEvent 1 0x81 2) [0; 0; 0]
              eq_refl eq_refl eq_refl (or_intror eq_refl) eq_refl)
    as (_ & Hbuttons & _).
  - simpl. lia.
  - rewrite Hbuttons. reflexivity.
Defined.

(** C7, as stated, fails for a button event whose number lies outside
    the button array. js0 has three buttons; an event for button 7 with
    value 1 is read. [GLFW_PRESS] is not stored in the array, which has no
    element 7: the store goes past its end and has no defined
    behaviour. *)
Lemma button_event_outside_array :
  reachable Sample.stray /\
  faulted Sample.stray = false /\
  present (slot (js Sample.stray) 0) = true /\
  buttons (slot (js Sample.stray) 0) = Some [0; 0; 0] /\
  os_events (os Sample.stray) (fd (slot (js Sample.stray) 0))
  = [ReadEvent (mkEvent 1 JS_EVENT_BUTTON 7)] /\
  (forall l, buttons (slot (js Sample.stray) 0) = Some l ->
             l !! Z.to_nat 7 <> Some GLFW_PRESS) /\
  store (buttons (slot (js Sample.stray) 0)) 7 (button_value 1) = None /\
  handleEvent (mkEvent 1 JS_EVENT_BUTTON 7) (slot (js Sample.stray) 0) = None /\
  faulted (snd (pollJoystickEvents 0 Sample.stray)) = true.
Proof.
  split.
  { apply reach_os. apply (reach_call InitJoysticks). apply reach_start. }
  repeat split; try reflexivity.
  intros l [= <-]. discriminate.
Qed.

(** ** Axis values *)

Lemma handleEvent_axis e j l :
  clear_init (e_type e) = JS_EVENT_AXIS ->
  axes j = Some l ->
  0 <= e_number e < Z.of_nat (length l) ->
  handleEvent e j
  = Some (set_axes (Some (<[Z.to_nat (e_number e) := axis_value (e_value e)]> l)) j).
Proof.
  intros Ht Hl Hn. unfold handleEvent. rewrite Ht. simpl.
  rewrite Hl, store_inside by assumption. reflexivity.
Qed.

Lemma all_in_spec (f : Z -> bool) (k : nat) (a v : Z) :
  all_in f k a = true -> a <= v < a + 2 ^ Z.of_nat k -> f v = true.
Proof.
  revert a. induction k as [|k IH]; intros a; simpl all_in.
  - intros H Hv. replace v with a by (simpl in Hv; lia). exact H.
  - intros H Hv. apply andb_true_iff in H as [H1 H2].
    rewrite Nat2Z.inj_succ, Z.pow_succ_r in Hv by lia.
    destruct (Z.lt_ge_cases v (a + 2 ^ Z.of_nat k)).
    + apply (IH a); [assumption | lia].
    + apply (IH (a + 2 ^ Z.of_nat k)); [assumption | lia].
Qed.

(** The sign of the operand only decides the sign of the result. *)
Lemma binary_round_aux_sign prec emax mx ex lx :
  binary_round_aux prec emax true mx ex lx
  = SFopp (binary_round_aux prec emax false mx ex lx).
Proof.
  unfold binary_round_aux.
  destruct (shr_fexp prec emax mx ex lx) as [mrs' e'].
  destruct (shr_fexp prec emax _ e' loc_Exact) as [mrs'' e''].
  destruct (shr_m mrs'') as [|m|m]; try reflexivity.
  now destruct (e'' <=? emax - prec).
Qed.

Lemma float_of_int_neg p : float_of_int (Z.neg p) = SFopp (float_of_int (Z.pos p)).
Proof.
  unfold float_of_int, binary_normalize, binary_round.
  destruct (shl_align _ _ _) as [mz ez]. apply binary_round_aux_sign.
Qed.

Lemma float_div_opp x :
  float_div (SFopp x) (float_of_int 32767)
  = SFopp (float_div x (float_of_int 32767)).
Proof.
  change (float_of_int 32767) with (S754_finite false 16776704 (-9)).
  destruct x as [s|s| |s m e]; try reflexivity.
  - now destruct s.
  - now destruct s.
  - unfold float_div, SFdiv, SFopp.
    destruct (SFdiv_core_binary 24 128 (Z.pos m) e 16776704 (-9)) as [[mz ez] lz].
    destruct s; simpl xorb; simpl negb.
    + rewrite binary_round_aux_sign.
      now destruct (binary_round_aux 24 128 false mz ez lz) as [[]|[]| |[]].
    + apply binary_round_aux_sign.
Qed.

Lemma axis_value_neg p : axis_value (Z.neg p) = SFopp (axis_value (Z.pos p)).
Proof.
  unfold axis_value. rewrite float_of_int_neg. apply float_div_opp.
Qed.

(** All values from 0 to 32767, and their opposites, by evaluation. *)
Lemma axis_pair_in_unit_checked : all_in axis_pair_in_unit 15 0 = true.
Proof. vm_cast_no_check (eq_refl true). Qed.

Lemma axis_in_unit_range (v : Z) :
  -32767 <= v <= 32767 -> in_unit (axis_value v) = true.
Proof.
  intros Hv.
  assert (H : forall w, 0 <= w <= 32767 ->
                in_unit (axis_value w) = true /\
                in_unit (SFopp (axis_value w)) = true).
  { intros w Hw. apply andb_true_iff.
    apply (all_in_spec axis_pair_in_unit 15 0 w axis_pair_in_unit_checked).
    change (2 ^ Z.of_nat 15) with 32768. lia. }
  destruct v as [|p|p].
  - reflexivity.
  - apply H. lia.
  - rewrite axis_value_neg. apply H. lia.
Qed.

(** C6, as the code has it. An axis event whose index lies inside the
    axis array stores [(float) value / 32767.0f] at that index and leaves
    the other elements alone. The stored value lies in [-1.0, 1.0] for
    every value from -32767 to 32767; for -32768, the one remaining value
    of the signed 16-bit field, it is below -1.0. *)
Theorem axis_values_normalized :
  (forall e j l,
     clear_init (e_type e) = JS_EVENT_AXIS ->
     axes j = Some l ->
     0 <= e_number e < Z.of_nat (length l) ->
     exists j' l',
       handleEvent e j = Some j' /\
       axes j' = Some l' /\
       length l' = length l /\
       l' !! Z.to_nat (e_number e)
       = Some (float_div (float_of_int (e_value e)) (float_of_int 32767)) /\
       (forall i, i <> Z.to_nat (e_number e) -> l' !! i = l !! i)) /\
  (forall v,
     -32767 <= v <= 32767 ->
     float_leb (float_of_int (-1)) (axis_value v) = true /\
     float_leb (axis_value v) (float_of_int 1) = true) /\
  float_ltb (axis_value (-32768)) (float_of_int (-1)) = true.
Proof.
  split; [|split].
  - intros e j l Ht Hl Hn.
    exists (set_axes (Some (<[Z.to_nat (e_number e) := axis_value (e_value e)]> l)) j),
           (<[Z.to_nat (e_number e) := axis_value (e_value e)]> l).
    rewrite (handleEvent_axis e j l Ht Hl Hn).
    assert (Hlen : (Z.to_nat (e_number e) < length l)%nat) by lia.
    repeat split.
    + apply length_insert.
    + now rewrite list_lookup_insert_eq.
    + intros i Hi. now apply list_lookup_insert_ne.
  - intros v Hv. apply axis_in_unit_range in Hv.
    unfold in_unit in Hv. now apply andb_true_iff in Hv.
  - reflexivity.
Qed.

(** Half deflection. *)
Lemma axis_values_normalized_witness :
  -32767 <= 16384 <= 32767 /\
  float_leb (float_of_int (-1)) (axis_value 16384) = true /\
  float_leb (axis_value 16384) (float_of_int 1) = true.
Proof.
  split; [lia|].
  apply (proj1 (proj2 axis_values_normalized) 16384). lia.
Defined.

(** C6, as stated, fails for the value -32768: after the poller has
    processed that axis event, the stored value is not in [-1.0, 1.0]. *)
Lemma axis_value_below_minus_one :
  axes (slot (js (snd (pollJoystickEvents 0 Sample.pushed))) 0)
  = Some [axis_value (-32768); float_zero] /\
  axis_value (-32768) = S754_finite true 8388864 (-23) /\
  float_of_int (-1) = S754_finite true 8388608 (-23) /\
  float_leb (float_of_int (-1)) (axis_value (-32768)) = false.
Proof.
  repeat split; reflexivity.
Qed.

(** ** Discovery by name *)

Lemma openJoystickDevice_calls p g :
  exists calls,
    fd_calls (snd (openJoystickDevice p g)) = fd_calls g ++ calls /\
    forall q d, In (Open q d) calls -> q = p.
Proof.
  destruct (openJoystickDevice_outcome p g); simpl.
  - exists []. rewrite app_nil_r. split; [reflexivity | intros q d []].
  - exists []. rewrite app_nil_r. split; [reflexivity | intros q d []].
  - exists [Open p (-1)]. split; [reflexivity|].
    intros q d' [[= -> _]|[]]. reflexivity.
  - exists [Open p d; Close d]. rewrite <- app_assoc. split; [reflexivity|].
    intros q d' [[= -> _]|[[=]|[]]]. reflexivity.
  - exists [Open p d]. split; [reflexivity|].
    intros q d' [[= -> _]|[]]. reflexivity.
Qed.

Lemma all_digits_substring k s :
  all_digits s = true -> all_digits (String.substring 0 k s) = true.
Proof.
  revert s. induction k as [|k IH]; intros [|c s]; simpl; auto.
  intros H. apply andb_true_iff in H as [-> H]. simpl. now apply IH.
Qed.

Lemma snprintf_path_truncates n :
  snprintf_path n = ("/dev/input/" ++ String.substring 0 8 n)%string.
Proof. reflexivity. Qed.

Lemma regexec_js_truncated n :
  regexec_js n = true -> regexec_js (String.substring 0 8 n) = true.
Proof.
  destruct n as [|c1 [|c2 [|d rest]]]; try discriminate.
  - simpl. destruct c1 as [[] [] [] [] [] [] [] []]; discriminate.
  - simpl. destruct c1 as [[] [] [] [] [] [] [] []]; try discriminate.
    destruct c2 as [[] [] [] [] [] [] [] []]; discriminate.
  - intros H.
    change (String.substring 0 8 (String c1 (String c2 (String d rest))))
      with (String c1 (String c2 (String d (String.substring 0 5 rest)))).
    revert H. unfold regexec_js.
    destruct c1 as [[] [] [] [] [] [] [] []]; try discriminate.
    destruct c2 as [[] [] [] [] [] [] [] []]; try discriminate.
    intros H. apply andb_true_iff in H as [-> H]. simpl.
    now apply all_digits_substring.
Qed.

Lemma matching_path_of n names :
  In n names -> regexec_js n = true -> matching_path names (snprintf_path n).
Proof.
  intros Hin Hm. exists n. repeat split; auto.
  exists (String.substring 0 8 n). split.
  - now apply regexec_js_truncated.
  - apply snprintf_path_truncates.
Qed.

Lemma matching_path_weaken n names p :
  matching_path names p -> matching_path (n :: names) p.
Proof.
  intros (m & Hin & H). exists m. split; [now right | exact H].
Qed.

Lemma hotplugEvents_filter events g :
  hotplugEvents events g
  = fold_left (fun g p => snd (openJoystickDevice p g))
              (map snprintf_path (List.filter regexec_js (map ie_name events))) g.
Proof.
  revert g. induction events as [|e events IH]; intros g; simpl; [reflexivity|].
  destruct (regexec_js (ie_name e)); simpl; apply IH.
Qed.

Lemma scanDirectory_filter entries count g :
  scanDirectory entries count g
  = scanDirectory (List.filter regexec_js entries) count g.
Proof.
  revert count g. induction entries as [|n entries IH]; intros count g; simpl;
    [reflexivity|].
  destruct (regexec_js n) eqn:E; simpl.
  - rewrite E. simpl. destruct (openJoystickDevice _ _) as [opened g1]. apply IH.
  - apply IH.
Qed.

Lemma hotplugEvents_calls events g :
  exists calls,
    fd_calls (hotplugEvents events g) = fd_calls g ++ calls /\
    forall p d, In (Open p d) calls -> matching_path (map ie_name events) p.
Proof.
  revert g. induction events as [|e events IH]; intros g; simpl.
  - exists []. rewrite app_nil_r. split; [reflexivity | intros p d []].
  - set (n := ie_name e). destruct (regexec_js n) eqn:E.
    + destruct (openJoystickDevice_calls (snprintf_path n) g) as (c1 & H1 & P1).
      destruct (IH (snd (openJoystickDevice (snprintf_path n) g))) as (c2 & H2 & P2).
      exists (c1 ++ c2). rewrite H2, H1, app_assoc. split; [reflexivity|].
      intros p d Hin. apply in_app_or in Hin as [Hin|Hin].
      * rewrite (P1 p d Hin). apply matching_path_of; [now left | assumption].
      * apply matching_path_weaken. eapply P2; eauto.
    + destruct (IH g) as (c2 & H2 & P2). exists c2. split; [assumption|].
      intros p d Hin. apply matching_path_weaken. eapply P2; eauto.
Qed.

Lemma scanDirectory_calls entries count g :
  exists calls,
    fd_calls (snd (scanDirectory entries count g)) = fd_calls g ++ calls /\
    forall p d, In (Open p d) calls -> matching_path entries p.
Proof.
  revert count g. induction entries as [|n entries IH]; intros count g; simpl.
  - exists []. rewrite app_nil_r. split; [reflexivity | intros p d []].
  - destruct (regexec_js n) eqn:E; simpl.
    + destruct (openJoystickDevice_calls (snprintf_path n) g) as (c1 & H1 & P1).
      destruct (openJoystickDevice (snprintf_path n) g) as [opened g1]. simpl in H1.
      destruct (IH (if opened then S count else count) g1) as (c2 & H2 & P2).
      exists (c1 ++ c2). rewrite H2, H1, app_assoc. split; [reflexivity|].
      intros p d Hin. apply in_app_or in Hin as [Hin|Hin].
      * rewrite (P1 p d Hin). apply matching_path_of; [now left | assumption].
      * apply matching_path_weaken. eapply P2; eauto.
    + destruct (IH count g) as (c2 & H2 & P2). exists c2. split; [assumption|].
      intros p d Hin. apply matching_path_weaken. eapply P2; eauto.
Qed.

Lemma _glfwInitJoysticksLinux_calls g :
  exists calls,
    fd_calls (snd (_glfwInitJoysticksLinux g)) = fd_calls g ++ calls /\
    forall p d, In (Open p d) calls ->
                matching_path (default [] (os_opendir (os g))) p.
Proof.
  assert (Hnone : exists calls : list fd_call,
            fd_calls g = fd_calls g ++ calls /\
            forall p d, In (Open p d) calls ->
                        matching_path (default [] (os_opendir (os g))) p).
  { exists []. rewrite app_nil_r. split; [reflexivity | intros p d []]. }
  unfold _glfwInitJoysticksLinux.
  set (g0 := set_inotify (os_inotify_init1 (os g)) g).
  destruct (inotify g0 =? -1); [exact Hnone|].
  destruct (negb (os_regcomp (os (addWatch g0)) =? 0)).
  - simpl. unfold addWatch. destruct (watch _ =? -1); exact Hnone.
  - assert (Hfd : fd_calls (addWatch g0) = fd_calls g).
    { unfold addWatch. now destruct (watch _ =? -1). }
    unfold scanDevices. rewrite os_addWatch. change (os g0) with (os g).
    destruct (os_opendir (os g)) as [entries|]; simpl.
    + destruct (scanDirectory_calls entries 0 (addWatch g0)) as (calls & H & P).
      destruct (scanDirectory entries 0 (addWatch g0)) as [count g2].
      simpl in *. exists calls. rewrite H, Hfd. split; [reflexivity | exact P].
    + rewrite Hfd. exact Hnone.
Qed.

(** X21. Both loops of the discovery hand [openJoystickDevice] only paths
    built from strings that match the pattern. The directory loop of the
    initialisation skips every entry that does not match. The hot-plug
    loop calls [openJoystickDevice] for the records of the buffer whose
    bytes at [e->name] match, in order, and for nothing else. Every [open]
    call either of them makes is for a file of [/dev/input] named js
    followed by digits. *)
Theorem discovery_matches_pattern :
  (forall entries count g,
     scanDirectory entries count g
     = scanDirectory (List.filter regexec_js entries) count g) /\
  (forall entry entries count g,
     regexec_js entry = false ->
     scanDirectory (entry :: entries) count g = scanDirectory entries count g) /\
  (forall g,
     _glfwPollJoystickEvents g
     = fold_left (fun g p => snd (openJoystickDevice p g))
                 (map snprintf_path
                    (List.filter regexec_js (map ie_name (os_inotify (os g)))))
                 (set_os (set_inotify_events [] (os g)) g)) /\
  (forall g, exists calls,
     fd_calls (snd (_glfwInitJoysticksLinux g)) = fd_calls g ++ calls /\
     forall p d, In (Open p d) calls ->
                 matching_path (default [] (os_opendir (os g))) p) /\
  (forall g, exists calls,
     fd_calls (_glfwPollJoystickEvents g) = fd_calls g ++ calls /\
     forall p d, In (Open p d) calls ->
                 matching_path (map ie_name (os_inotify (os g))) p).
Proof.
  split; [|split; [|split; [|split]]].
  - exact scanDirectory_filter.
  - intros entry entries count g H. simpl. now rewrite H.
  - intros g. unfold _glfwPollJoystickEvents. apply hotplugEvents_filter.
  - exact _glfwInitJoysticksLinux_calls.
  - intros g. unfold _glfwPollJoystickEvents.
    apply (hotplugEvents_calls (os_inotify (os g))
             (set_os (set_inotify_events [] (os g)) g)).
Qed.

(** The entry event0 of the device directory is skipped. *)
Lemma discovery_matches_pattern_witness :
  regexec_js "event0" = false /\
  scanDirectory ["event0"; "js0"]%string 0 Sample.fresh
  = scanDirectory ["js0"%string] 0 Sample.fresh.
Proof.
  split; [reflexivity|].
  apply (proj1 (proj2 discovery_matches_pattern)). reflexivity.
Defined.

(** C8. An inotify event without a name. The watched directory itself
    changes an attribute: the record in the buffer has [len] 0 and names
    no file, and the bytes behind it, left by an earlier read, spell js0.
    The hot-plug loop runs [regexec] on those bytes without looking at
    [len], finds a match and calls [openJoystickDevice]: [/dev/input/js0]
    is opened and reported as connected, though no event named it. *)
Theorem _glfwPollJoystickEvents_nameless_event :
  ie_len <$> os_inotify (os Sample.nameless) = [0] /\
  fd_calls Sample.nameless = [] /\
  fd_calls (_glfwPollJoystickEvents Sample.nameless) = [Open "/dev/input/js0" 5] /\
  joystick_changes (_glfwPollJoystickEvents Sample.nameless)
  = [(0%nat, GLFW_CONNECTED)] /\
  present (slot (js (_glfwPollJoystickEvents Sample.nameless)) 0) = true /\
  path (slot (js (_glfwPollJoystickEvents Sample.nameless)) 0)
  = Some "/dev/input/js0"%string.
Proof.
  repeat split; reflexivity.
Qed.

(** ** Initialisation *)

Lemma scanDirectory_frame entries count g :
  let g' := snd (scanDirectory entries count g) in
  os g' = os g /\ input_errors g' = input_errors g /\
  inotify g' = inotify g /\ watch g' = watch g.
Proof.
  revert count g. induction entries as [|n entries IH]; intros count g; simpl;
    [auto|].
  destruct (regexec_js n); simpl; [|apply IH].
  pose proof (openJoystickDevice_frame (snprintf_path n) g) as H.
  destruct (openJoystickDevice (snprintf_path n) g) as [opened g1].
  simpl in H. destruct H as (H1 & H2 & H3 & H4).
  specialize (IH (if opened then S count else count) g1). simpl in IH.
  rewrite <- H1, <- H2, <- H3, <- H4. exact IH.
Qed.

(** The initialisation, branch by branch. *)
Lemma _glfwInitJoysticksLinux_unfold g :
  _glfwInitJoysticksLinux g
  = let g0 := set_inotify (os_inotify_init1 (os g)) g in
    if os_inotify_init1 (os g) =? -1 then
      (false, _glfwInputError GLFW_PLATFORM_ERROR
                "Linux: Failed to initialize inotify: %s" g0)
    else if os_regcomp (os g) =? 0 then
      (true, set_js (_glfw_qsort (js (snd (scanDevices (addWatch g0))))
                                 (fst (scanDevices (addWatch g0))))
                    (snd (scanDevices (addWatch g0))))
    else
      (false, _glfwInputError GLFW_PLATFORM_ERROR
                "Linux: Failed to compile regex" (addWatch g0)).
Proof.
  unfold _glfwInitJoysticksLinux. cbv zeta.
  change (inotify (set_inotify (os_inotify_init1 (os g)) g))
    with (os_inotify_init1 (os g)).
  destruct (os_inotify_init1 (os g) =? -1); [reflexivity|].
  rewrite os_addWatch. change (os (set_inotify (os_inotify_init1 (os g)) g)) with (os g).
  destruct (os_regcomp (os g) =? 0); simpl; [|reflexivity].
  now destruct (scanDevices _).
Qed.

(** C10. [_glfwInitJoysticksLinux] returns false exactly when
    [inotify_init1] fails or [regcomp] fails. When neither fails, a failure
    of [inotify_add_watch] is reported with [_glfwInputError] and the call
    still returns true, with the failed watch recorded; likewise a
    directory that cannot be opened is reported, the call returns true,
    and the table and the log of joystick changes are as before. *)
Theorem _glfwInitJoysticksLinux_result (g : _GLFWlibrary) :
  (fst (_glfwInitJoysticksLinux g) = false <->
   os_inotify_init1 (os g) = -1 \/ os_regcomp (os g) <> 0) /\
  (os_inotify_init1 (os g) <> -1 -> os_regcomp (os g) = 0 ->
   os_inotify_add_watch (os g) = -1 ->
   fst (_glfwInitJoysticksLinux g) = true /\
   watch (snd (_glfwInitJoysticksLinux g)) = -1 /\
   In (GLFW_PLATFORM_ERROR,
       "Linux: Failed to watch for joystick connections in %s: %s"%string)
      (input_errors (snd (_glfwInitJoysticksLinux g)))) /\
  (os_inotify_init1 (os g) <> -1 -> os_regcomp (os g) = 0 ->
   os_opendir (os g) = None ->
   fst (_glfwInitJoysticksLinux g) = true /\
   In (GLFW_PLATFORM_ERROR,
       "Linux: Failed to open joystick device directory %s: %s"%string)
      (input_errors (snd (_glfwInitJoysticksLinux g))) /\
   js (snd (_glfwInitJoysticksLinux g)) = js g /\
   joystick_changes (snd (_glfwInitJoysticksLinux g)) = joystick_changes g).
Proof.
  rewrite _glfwInitJoysticksLinux_unfold. cbv zeta.
  set (g0 := set_inotify (os_inotify_init1 (os g)) g).
  split; [|split].
  - destruct (Z.eqb_spec (os_inotify_init1 (os g)) (-1)) as [E|E]; simpl.
    + tauto.
    + destruct (Z.eqb_spec (os_regcomp (os g)) 0) as [R|R]; simpl.
      * split; [discriminate | intros [?|?]; contradiction].
      * tauto.
  - intros Hi Hr Hw.
    apply Z.eqb_neq in Hi. rewrite Hi. rewrite Hr. simpl.
    assert (Hadd : addWatch g0
                   = _glfwInputError GLFW_PLATFORM_ERROR
                       "Linux: Failed to watch for joystick connections in %s: %s"
                       (set_watch (-1) g0)).
    { unfold addWatch. change (os g0) with (os g). rewrite Hw. reflexivity. }
    unfold scanDevices.
    destruct (os_opendir (os (addWatch g0))) as [entries|].
    + destruct (scanDirectory_frame entries 0 (addWatch g0)) as (_ & He & _ & Hwatch).
      rewrite Hwatch, He, Hadd. simpl. repeat split; auto.
      apply in_or_app. right. now left.
    + simpl. rewrite Hadd. simpl. repeat split; auto.
      apply in_or_app. left. apply in_or_app. right. now left.
  - intros Hi Hr Hd.
    apply Z.eqb_neq in Hi. rewrite Hi. rewrite Hr. simpl.
    unfold scanDevices. rewrite os_addWatch. change (os g0) with (os g).
    rewrite Hd. simpl. repeat split.
    + apply in_or_app. right. now left.
    + unfold _glfw_qsort. rewrite take_0, drop_0. simpl. now rewrite js_addWatch.
    + unfold addWatch. now destruct (watch _ =? -1).
Qed.

(** Without a directory watch the initialisation still succeeds. *)
Lemma _glfwInitJoysticksLinux_result_witness :
  os_inotify_init1 (os Sample.unwatched) <> -1 /\
  os_regcomp (os Sample.unwatched) = 0 /\
  os_inotify_add_watch (os Sample.unwatched) = -1 /\
  fst (_glfwInitJoysticksLinux Sample.unwatched) = true /\
  watch (snd (_glfwInitJoysticksLinux Sample.unwatched)) = -1 /\
  In (GLFW_PLATFORM_ERROR,
      "Linux: Failed to watch for joystick connections in %s: %s"%string)
     (input_errors (snd (_glfwInitJoysticksLinux Sample.unwatched))).
Proof.
  split; [discriminate|]. split; [reflexivity|]. split; [reflexivity|].
  apply (proj1 (proj2 (_glfwInitJoysticksLinux_result Sample.unwatched))).
  - discriminate.
  - reflexivity.
  - reflexivity.
Defined.

(** ** The order of the table after initialisation *)

Lemma prefix_full_start : prefix_full 0 (replicate (S GLFW_JOYSTICK_LAST) js_zero).
Proof.
  split; [apply length_replicate|]. split; [intros k Hk; lia|].
  intros k _. unfold slot.
  destruct (replicate (S GLFW_JOYSTICK_LAST) js_zero !! k) as [j|] eqn:E;
    [|reflexivity].
  apply lookup_replicate in E as [-> _]. reflexivity.
Qed.

Lemma prefix_full_bound n tbl : prefix_full n tbl -> (n <= S GLFW_JOYSTICK_LAST)%nat.
Proof.
  intros (Hok & Hlow & _).
  destruct (Nat.le_gt_cases n (S GLFW_JOYSTICK_LAST)) as [H|H]; [assumption|].
  specialize (Hlow (S GLFW_JOYSTICK_LAST) H). apply slot_present_lookup in Hlow.
  apply lookup_lt_Some in Hlow. rewrite Hok in Hlow. lia.
Qed.

Lemma openJoystickDevice_prefix_full p g g' opened n :
  prefix_full n (js g) ->
  openJoystickDevice p g = (opened, g') ->
  prefix_full (if opened then S n else n) (js g').
Proof.
  intros Hpre Hrun.
  pose proof (openJoystickDevice_outcome p g) as Hout. rewrite Hrun in Hout.
  inversion Hout as [| | | |jid d Hin Hfree Hd Hne Hv]; subst; simpl; auto.
  destruct Hpre as (Hok & Hlow & Hhigh).
  apply free_jid_Some in Hfree as (Hr & Hp & Hbelow).
  assert (jid = n) as ->.
  { destruct (Nat.lt_trichotomy jid n) as [H|[H|H]]; [|assumption|].
    - rewrite (Hlow jid H) in Hp. discriminate.
    - specialize (Hbelow n H). rewrite (Hhigh n (Nat.le_refl n)) in Hbelow.
      discriminate. }
  assert (Hlen : (n < length (js g))%nat) by (rewrite Hok; lia).
  split; [now apply table_ok_insert|]. split.
  - intros k Hk. destruct (Nat.eq_dec k n) as [->|Hne'].
    + now rewrite slot_insert_eq.
    + rewrite slot_insert_ne by assumption. apply Hlow. lia.
  - intros k Hk. rewrite slot_insert_ne by lia. apply Hhigh. lia.
Qed.

Lemma scanDirectory_prefix_full entries count g :
  prefix_full count (js g) ->
  prefix_full (fst (scanDirectory entries count g))
              (js (snd (scanDirectory entries count g))).
Proof.
  revert count g. induction entries as [|n entries IH]; intros count g Hpre; simpl;
    [assumption|].
  destruct (regexec_js n); simpl; [|now apply IH].
  destruct (openJoystickDevice (snprintf_path n) g) as [opened g1] eqn:E.
  apply IH. exact (openJoystickDevice_prefix_full _ _ _ _ _ Hpre E).
Qed.

Lemma populated_all l : Forall (fun j => present j = true) l -> populated l = l.
Proof.
  unfold populated. induction 1 as [|j l Hj _ IH]; [reflexivity|].
  rewrite filter_cons_True by assumption. now rewrite IH.
Qed.

Lemma populated_none l : Forall (fun j => present j = false) l -> populated l = [].
Proof.
  unfold populated. induction 1 as [|j l Hj _ IH]; [reflexivity|].
  rewrite filter_cons_False by congruence. exact IH.
Qed.

Lemma prefix_full_take n tbl :
  prefix_full n tbl -> Forall (fun j => present j = true) (take n tbl).
Proof.
  intros (_ & Hlow & _). apply Forall_lookup. intros i j Hi.
  apply lookup_take_Some in Hi as [Hi Hlt].
  rewrite <- (slot_lookup _ _ _ Hi). now apply Hlow.
Qed.

Lemma prefix_full_drop n tbl :
  prefix_full n tbl -> Forall (fun j => present j = false) (drop n tbl).
Proof.
  intros (_ & _ & Hhigh). apply Forall_lookup. intros i j Hi.
  rewrite lookup_drop in Hi.
  rewrite <- (slot_lookup _ _ _ Hi). apply Hhigh. lia.
Qed.

(** After the sort the slots in use are the leading [n] slots, in
    non-decreasing order of [compareJoysticks]. *)
Lemma _glfw_qsort_sorted n tbl :
  prefix_full n tbl ->
  populated (_glfw_qsort tbl n) = take n (_glfw_qsort tbl n) /\
  sorted_by_path (populated (_glfw_qsort tbl n)).
Proof.
  intros Hpre.
  assert (Hpop : populated (_glfw_qsort tbl n) = merge_sort js_le (take n tbl)).
  { unfold _glfw_qsort, populated. rewrite filter_app.
    fold (populated (merge_sort js_le (take n tbl))).
    fold (populated (drop n tbl)).
    rewrite (populated_none _ (prefix_full_drop _ _ Hpre)), app_nil_r.
    apply populated_all. rewrite merge_sort_Permutation.
    now apply prefix_full_take. }
  split.
  - rewrite Hpop. unfold _glfw_qsort.
    rewrite take_app_length'; [reflexivity|].
    rewrite merge_sort_Permutation, length_take.
    pose proof (prefix_full_bound _ _ Hpre) as Hn.
    destruct Hpre as (Hok & _). rewrite Hok. lia.
  - rewrite Hpop. apply StronglySorted_merge_sort; apply _.
Qed.

Lemma StronglySorted_lookup_le {A} (R : relation A) (l : list A) i k x y :
  StronglySorted R l -> (i < k)%nat ->
  l !! i = Some x -> l !! k = Some y -> R x y.
Proof.
  intros Hs. revert i k. induction Hs as [|a l Hs IH Hall]; intros i k Hik Hi Hk.
  - discriminate.
  - destruct k as [|k]; [lia|]. destruct i as [|i]; simpl in *.
    + injection Hi as <-. eapply Forall_lookup_1; eauto.
    + apply (IH i k); [lia | assumption | assumption].
Qed.

(** C5. When [_glfwInitJoysticksLinux] has run on the library state
    [glfwInit] hands over, the slots in use are the leading slots of the
    table and they stand in non-decreasing [strcmp] order of the name of
    their device, its path [/dev/input/jsN], which is what
    [compareJoysticks] compares "by name": of two slots in use, the one
    with the lower index has the path that compares lower or equal. *)
Theorem _glfwInitJoysticksLinux_sorted (o : OS) :
  (exists count,
     (count <= S GLFW_JOYSTICK_LAST)%nat /\
     populated (js (snd (_glfwInitJoysticksLinux (library_start o))))
     = take count (js (snd (_glfwInitJoysticksLinux (library_start o))))) /\
  sorted_by_path (populated (js (snd (_glfwInitJoysticksLinux (library_start o))))) /\
  (forall i k,
     (i < k)%nat ->
     present (slot (js (snd (_glfwInitJoysticksLinux (library_start o)))) i) = true ->
     present (slot (js (snd (_glfwInitJoysticksLinux (library_start o)))) k) = true ->
     _glfw_strcmp
       (path_str (slot (js (snd (_glfwInitJoysticksLinux (library_start o)))) i))
       (path_str (slot (js (snd (_glfwInitJoysticksLinux (library_start o)))) k))
     <= 0).
Proof.
  assert (Hshape : exists count,
            prefix_full count (js (snd (_glfwInitJoysticksLinux (library_start o)))) /\
            populated (js (snd (_glfwInitJoysticksLinux (library_start o))))
            = take count (js (snd (_glfwInitJoysticksLinux (library_start o)))) /\
            sorted_by_path
              (populated (js (snd (_glfwInitJoysticksLinux (library_start o)))))).
  { rewrite _glfwInitJoysticksLinux_unfold. cbv zeta.
    set (g0 := set_inotify (os_inotify_init1 (os (library_start o))) (library_start o)).
    assert (Hempty : populated (replicate (S GLFW_JOYSTICK_LAST) js_zero) = []).
    { reflexivity. }
    assert (Hstart : prefix_full 0 (js (addWatch g0))).
    { rewrite js_addWatch. apply prefix_full_start. }
    destruct (os_inotify_init1 (os (library_start o)) =? -1).
    { exists 0%nat. split; [apply prefix_full_start|].
      split; [reflexivity | constructor]. }
    destruct (os_regcomp (os (library_start o)) =? 0).
    2: { exists 0%nat. simpl. rewrite js_addWatch.
         split; [apply prefix_full_start|]. split; [reflexivity | constructor]. }
    assert (Hscan : prefix_full (fst (scanDevices (addWatch g0)))
                                (js (snd (scanDevices (addWatch g0))))).
    { unfold scanDevices. destruct (os_opendir _).
      - now apply scanDirectory_prefix_full.
      - exact Hstart. }
    exists (fst (scanDevices (addWatch g0))). simpl.
    destruct (_glfw_qsort_sorted _ _ Hscan) as [Htake Hsorted].
    split; [|split; assumption].
    destruct Hscan as (Hok & Hlow & Hhigh).
    pose proof (prefix_full_take _ _ (conj Hok (conj Hlow Hhigh))) as Hall.
    pose proof (prefix_full_drop _ _ (conj Hok (conj Hlow Hhigh))) as Hnone.
    pose proof (prefix_full_bound _ _ (conj Hok (conj Hlow Hhigh))) as Hn.
    set (n := fst (scanDevices (addWatch g0))) in *.
    set (tbl := js (snd (scanDevices (addWatch g0)))) in *.
    assert (Hlen : length (merge_sort js_le (take n tbl)) = n).
    { rewrite merge_sort_Permutation, length_take, Hok. lia. }
    split; [|split].
    - eapply table_ok_perm; [|exact Hok]. symmetry. apply _glfw_qsort_Permutation.
    - intros k Hk. unfold slot, _glfw_qsort.
      rewrite lookup_app_l by lia.
      destruct (lookup_lt_is_Some_2 (merge_sort js_le (take n tbl)) k) as [j Hj];
        [lia|].
      rewrite Hj. simpl.
      assert (Hin : j ∈ merge_sort js_le (take n tbl))
        by (eapply list_elem_of_lookup_2; eauto).
      rewrite merge_sort_Permutation in Hin.
      eapply (proj1 (Forall_forall _ _) Hall); eauto.
    - intros k Hk. unfold slot, _glfw_qsort.
      rewrite lookup_app_r by lia. rewrite Hlen.
      destruct (drop n tbl !! (k - n)%nat) as [j|] eqn:Hj; [|reflexivity].
      simpl. eapply Forall_lookup_1 in Hnone; eauto. }
  destruct Hshape as (count & Hpre & Htake & Hsorted).
  split; [|split].
  - exists count. split; [eapply prefix_full_bound; eauto | exact Htake].
  - exact Hsorted.
  - intros i k Hik Hi Hk.
    apply slot_present_lookup in Hi as Li. apply slot_present_lookup in Hk as Lk.
    destruct Hpre as (Hok & Hlow & Hhigh).
    assert (Hkc : (k < count)%nat).
    { destruct (Nat.lt_ge_cases k count) as [H|H]; [assumption|].
      rewrite (Hhigh k H) in Hk. discriminate. }
    rewrite Htake in Hsorted.
    apply (StronglySorted_lookup_le js_le _ i k _ _ Hsorted Hik).
    + rewrite lookup_take_lt by lia. exact Li.
    + rewrite lookup_take_lt by lia. exact Lk.
Qed.

(** * Further properties of the module *)

(** ** Termination of the module *)

Lemma closed_fds_app (a b : list cleanup_call) :
  closed_fds (a ++ b) = closed_fds a ++ closed_fds b.
Proof. unfold closed_fds. apply omap_app. Qed.

Lemma closed_fds_slots (pre tbl : list _GLFWjoystickLinux) :
  closed_fds (flat_map (terminateSlot (pre ++ tbl)) (seq (length pre) (length tbl)))
  = fd <$> populated tbl.
Proof.
  revert pre. induction tbl as [|j tbl IH]; intros pre; [reflexivity|].
  cbn [length seq flat_map]. rewrite closed_fds_app.
  replace (S (length pre)) with (length (pre ++ [j]))
    by (rewrite length_app; simpl; lia).
  replace (pre ++ j :: tbl) with ((pre ++ [j]) ++ tbl) at 2
    by (now rewrite <- app_assoc).
  rewrite IH. unfold terminateSlot, slot.
  rewrite lookup_app_r, Nat.sub_diag by lia. cbn [lookup list_lookup default].
  unfold id, populated. rewrite filter_cons.
  destruct (decide (present j = true)) as [E|E].
  - now rewrite E.
  - apply not_true_is_false in E. now rewrite E.
Qed.

(** X1. [_glfwTerminateJoysticksLinux] closes the descriptor of every
    slot in use, once each and in table order, then the inotify descriptor
    when it is positive, and no other descriptor. *)
Theorem _glfwTerminateJoysticksLinux_closes (g : _GLFWlibrary) :
  table_ok (js g) ->
  closed_fds (_glfwTerminateJoysticksLinux g)
  = (fd <$> populated (js g)) ++ (if 0 <? inotify g then [inotify g] else []).
Proof.
  intros Hok. unfold _glfwTerminateJoysticksLinux.
  rewrite !closed_fds_app.
  pose proof (closed_fds_slots [] (js g)) as H. simpl in H. rewrite Hok in H.
  rewrite H. f_equal.
  destruct (0 <? inotify g); [|reflexivity].
  rewrite closed_fds_app. now destruct (0 <? watch g).
Qed.

(** On the sample system both devices and the inotify descriptor are
    closed. *)
Lemma _glfwTerminateJoysticksLinux_closes_witness :
  table_ok (js Sample2.running) /\
  closed_fds (_glfwTerminateJoysticksLinux Sample2.running) = [5; 6; 3].
Proof.
  split; [reflexivity|].
  rewrite (_glfwTerminateJoysticksLinux_closes Sample2.running eq_refl).
  reflexivity.
Defined.

Lemma terminateSlot_no_watch tbl ids i w :
  ~ In (InotifyRmWatch i w) (flat_map (terminateSlot tbl) ids).
Proof.
  rewrite in_flat_map. intros (k & _ & Hin). unfold terminateSlot in Hin.
  destruct (present (slot tbl k)); simpl in Hin; intuition discriminate.
Qed.

Lemma inotify_init g :
  inotify (snd (_glfwInitJoysticksLinux g)) = os_inotify_init1 (os g).
Proof.
  rewrite _glfwInitJoysticksLinux_unfold. cbv zeta.
  set (g0 := set_inotify (os_inotify_init1 (os g)) g).
  assert (Hadd : inotify (addWatch g0) = os_inotify_init1 (os g)).
  { unfold addWatch. now destruct (watch _ =? -1). }
  destruct (os_inotify_init1 (os g) =? -1); [reflexivity|].
  destruct (os_regcomp (os g) =? 0); simpl; [|exact Hadd].
  unfold scanDevices. destruct (os_opendir _); simpl; [|exact Hadd].
  destruct (scanDirectory_frame l 0 (addWatch g0)) as (_ & _ & -> & _).
  exact Hadd.
Qed.

Lemma watch_init g :
  os_inotify_init1 (os g) <> -1 ->
  watch (snd (_glfwInitJoysticksLinux g)) = os_inotify_add_watch (os g).
Proof.
  intros Hi. rewrite _glfwInitJoysticksLinux_unfold. cbv zeta.
  set (g0 := set_inotify (os_inotify_init1 (os g)) g).
  assert (Hadd : watch (addWatch g0) = os_inotify_add_watch (os g)).
  { unfold addWatch. now destruct (watch _ =? -1). }
  apply Z.eqb_neq in Hi. rewrite Hi.
  destruct (os_regcomp (os g) =? 0); simpl; [|exact Hadd].
  unfold scanDevices. destruct (os_opendir _); simpl; [|exact Hadd].
  destruct (scanDirectory_frame l 0 (addWatch g0)) as (_ & _ & _ & ->).
  exact Hadd.
Qed.

(** X2. After [_glfwInitJoysticksLinux], whatever it returned,
    [_glfwTerminateJoysticksLinux] removes a watch exactly when
    [inotify_init1] and [inotify_add_watch] both returned positive values,
    and then it is that watch of that inotify descriptor; the very last
    call closes the inotify descriptor exactly when [inotify_init1]
    returned a positive value (a descriptor 0 is not closed), and
    otherwise the last call is [regfree]. *)
Theorem _glfwTerminateJoysticksLinux_after_init (g : _GLFWlibrary) :
  (forall i w,
     In (InotifyRmWatch i w)
        (_glfwTerminateJoysticksLinux (snd (_glfwInitJoysticksLinux g)))
     <-> i = os_inotify_init1 (os g) /\ w = os_inotify_add_watch (os g) /\
         0 < i /\ 0 < w) /\
  last (_glfwTerminateJoysticksLinux (snd (_glfwInitJoysticksLinux g)))
  = Some (if 0 <? os_inotify_init1 (os g)
          then CloseFd (os_inotify_init1 (os g)) else RegFree).
Proof.
  unfold _glfwTerminateJoysticksLinux. rewrite inotify_init.
  set (slots := flat_map _ _).
  split.
  - intros i w.
    assert (Hslots : ~ In (InotifyRmWatch i w) slots)
      by apply terminateSlot_no_watch.
    destruct (Z.ltb_spec 0 (os_inotify_init1 (os g))) as [Hi|Hi].
    + rewrite watch_init by lia.
      destruct (Z.ltb_spec 0 (os_inotify_add_watch (os g))) as [Hw|Hw];
        rewrite !in_app_iff; simpl; split.
      * intros H. repeat destruct H as [H|H]; try discriminate H;
          try contradiction. injection H as <- <-. auto.
      * intros (-> & -> & _). right. right. left. now left.
      * intros H. repeat destruct H as [H|H]; try discriminate H; contradiction.
      * intros (_ & -> & _ & H). lia.
    + rewrite !in_app_iff; simpl; split.
      * intros H. repeat destruct H as [H|H]; try discriminate H; contradiction.
      * intros (-> & _ & H & _). lia.
  - destruct (0 <? os_inotify_init1 (os g)).
    + rewrite !app_assoc. apply last_snoc.
    + rewrite app_nil_r. apply last_snoc.
Qed.

(** ** Descriptors *)

(** A property of the state that [openJoystickDevice] keeps, and that
    only depends on the table up to the order of its slots and on the two
    logs, is kept by the hot-plug reader and by the initialisation. *)
Section Growth.

Variable K : _GLFWlibrary -> Prop.

Hypothesis K_open : forall p g, K g -> K (snd (openJoystickDevice p g)).

Hypothesis K_frame : forall g g',
  js g' ≡ₚ js g -> joystick_changes g' = joystick_changes g ->
  fd_calls g' = fd_calls g -> K g -> K g'.

Lemma hotplugEvents_grows events g : K g -> K (hotplugEvents events g).
Proof.
  revert g. induction events as [|e events IH]; intros g HK; simpl; [assumption|].
  apply IH. destruct (regexec_js (ie_name e)); [now apply K_open | assumption].
Qed.

Lemma _glfwPollJoystickEvents_grows g : K g -> K (_glfwPollJoystickEvents g).
Proof.
  intros HK. unfold _glfwPollJoystickEvents. apply hotplugEvents_grows.
  now apply (K_frame g).
Qed.

Lemma scanDirectory_grows entries count g :
  K g -> K (snd (scanDirectory entries count g)).
Proof.
  revert count g. induction entries as [|n entries IH]; intros count g HK; simpl;
    [assumption|].
  destruct (regexec_js n); simpl; [|now apply IH].
  pose proof (K_open (snprintf_path n) g HK) as H1.
  destruct (openJoystickDevice _ _) as [opened g1]. now apply IH.
Qed.

Lemma _glfwInitJoysticksLinux_grows g : K g -> K (snd (_glfwInitJoysticksLinux g)).
Proof.
  intros HK. rewrite _glfwInitJoysticksLinux_unfold. cbv zeta.
  set (g0 := set_inotify (os_inotify_init1 (os g)) g).
  assert (H0 : K (addWatch g0)).
  { apply (K_frame g); auto; unfold addWatch; now destruct (watch _ =? -1). }
  destruct (os_inotify_init1 (os g) =? -1); [now apply (K_frame g)|].
  destruct (os_regcomp (os g) =? 0); simpl.
  - apply (K_frame (snd (scanDevices (addWatch g0)))); auto.
    + apply _glfw_qsort_Permutation.
    + unfold scanDevices. destruct (os_opendir _).
      * now apply scanDirectory_grows.
      * now apply (K_frame (addWatch g0)).
  - now apply (K_frame (addWatch g0)).
Qed.

End Growth.

Lemma populated_grows tbl jid j j' :
  (jid < length tbl)%nat -> present (slot tbl jid) = false ->
  j' ∈ populated tbl -> j' ∈ populated (<[jid := j]> tbl).
Proof.
  intros Hlen Hfree Hin.
  rewrite (populated_split tbl jid Hlen), Hfree in Hin. simpl in Hin.
  rewrite populated_insert by assumption.
  rewrite !elem_of_app in *. tauto.
Qed.

Lemma descriptors_accounted_open p g :
  descriptors_accounted g -> descriptors_accounted (snd (openJoystickDevice p g)).
Proof.
  intros [Hok Hheld].
  split; [exact (exec_table_ok (OpenJoystickDevice p) g Hok)|].
  destruct (openJoystickDevice_outcome p g)
    as [Hin|Hin Hfree|jid Hin Hfree Hd|jid d Hin Hfree Hd Hne Hv
        |jid d Hin Hfree Hd Hne Hv]; simpl; try assumption.
  - intros q d' Hop Hd'. simpl in *. apply in_app_or in Hop as [Hop|[[= _ <-]|[]]].
    + destruct (Hheld q d' Hop Hd') as [H|H]; [|now right].
      left. apply in_or_app. now left.
    + contradiction.
  - intros q d' Hop Hd'. simpl in *.
    apply in_app_or in Hop as [Hop|[[=]|[]]].
    apply in_app_or in Hop as [Hop|[[= _ <-]|[]]].
    + destruct (Hheld q d' Hop Hd') as [H|H]; [|now right].
      left. apply in_or_app. left. apply in_or_app. now left.
    + left. apply in_or_app. right. now left.
  - apply free_jid_Some in Hfree as (Hr & Hp & _).
    assert (Hlen : (jid < length (js g))%nat) by (rewrite Hok; lia).
    intros q d' Hop Hd'. simpl in *. apply in_app_or in Hop as [Hop|[[= _ <-]|[]]].
    + destruct (Hheld q d' Hop Hd') as [H|(j & Hj & Hfd)].
      * left. apply in_or_app. now left.
      * right. exists j. split; [|assumption]. now apply populated_grows.
    + right. exists (opened_slot (os g) p d). split; [|reflexivity].
      rewrite populated_insert by assumption. rewrite !elem_of_app. simpl.
      right. left. apply list_elem_of_here.
Qed.

Lemma descriptors_accounted_frame g g' :
  js g' ≡ₚ js g -> joystick_changes g' = joystick_changes g ->
  fd_calls g' = fd_calls g ->
  descriptors_accounted g -> descriptors_accounted g'.
Proof.
  intros Hp _ Hfd [Hok Hheld]. split.
  - eapply table_ok_perm; [symmetry; exact Hp | exact Hok].
  - intros q d. rewrite Hfd. intros Hop Hd.
    destruct (Hheld q d Hop Hd) as [H|(j & Hj & Hj')]; [now left|].
    right. exists j. split; [|assumption]. unfold populated in *. now rewrite Hp.
Qed.

Lemma descriptors_accounted_start o : descriptors_accounted (library_start o).
Proof.
  split; [reflexivity|]. intros q d [].
Qed.

Lemma terminate_closes_held g j :
  table_ok (js g) -> j ∈ populated (js g) ->
  In (CloseFd (fd j)) (_glfwTerminateJoysticksLinux g).
Proof.
  intros Hok Hj. apply populated_elem in Hj as (Hp & k & Hk & <-).
  unfold _glfwTerminateJoysticksLinux. apply in_or_app. left.
  apply in_flat_map. exists k. split.
  - apply in_seq. rewrite <- Hok. lia.
  - unfold terminateSlot. rewrite Hp. now left.
Qed.

(** X3. No descriptor is lost between initialisation and termination.
    From the state [glfwInit] hands over, after [_glfwInitJoysticksLinux]
    and any hot-plug round ([_glfwPollJoystickEvents] under any operating
    system [o']), every descriptor that [open] returned has been closed
    again by [openJoystickDevice] (old driver) or is closed by
    [_glfwTerminateJoysticksLinux]. *)
Theorem descriptors_closed_at_termination (o o' : OS) (p : string) (d : Z) :
  d <> -1 ->
  (In (Open p d) (fd_calls (snd (_glfwInitJoysticksLinux (library_start o)))) ->
   In (Close d) (fd_calls (snd (_glfwInitJoysticksLinux (library_start o)))) \/
   In (CloseFd d)
      (_glfwTerminateJoysticksLinux (snd (_glfwInitJoysticksLinux (library_start o))))) /\
  (In (Open p d)
      (fd_calls (_glfwPollJoystickEvents
                   (set_os o' (snd (_glfwInitJoysticksLinux (library_start o)))))) ->
   In (Close d)
      (fd_calls (_glfwPollJoystickEvents
                   (set_os o' (snd (_glfwInitJoysticksLinux (library_start o)))))) \/
   In (CloseFd d)
      (_glfwTerminateJoysticksLinux
         (_glfwPollJoystickEvents
            (set_os o' (snd (_glfwInitJoysticksLinux (library_start o))))))).
Proof.
  intros Hd.
  assert (H1 : descriptors_accounted (snd (_glfwInitJoysticksLinux (library_start o)))).
  { apply (_glfwInitJoysticksLinux_grows descriptors_accounted
             descriptors_accounted_open descriptors_accounted_frame).
    apply descriptors_accounted_start. }
  assert (H2 : descriptors_accounted
                 (_glfwPollJoystickEvents
                    (set_os o' (snd (_glfwInitJoysticksLinux (library_start o)))))).
  { apply (_glfwPollJoystickEvents_grows descriptors_accounted
             descriptors_accounted_open descriptors_accounted_frame).
    now apply (descriptors_accounted_frame
                 (snd (_glfwInitJoysticksLinux (library_start o)))). }
  split.
  - intros Hop. destruct H1 as [Hok Hheld].
    destruct (Hheld p d Hop Hd) as [H|(j & Hj & <-)]; [now left|].
    right. now apply terminate_closes_held.
  - intros Hop. destruct H2 as [Hok Hheld].
    destruct (Hheld p d Hop Hd) as [H|(j & Hj & <-)]; [now left|].
    right. now apply terminate_closes_held.
Qed.

(** On the sample system with a 0.x driver the descriptor of js0 is
    closed during the initialisation itself. *)
Lemma descriptors_closed_at_termination_witness :
  5 <> -1 /\
  In (Open "/dev/input/js0" 5)
     (fd_calls (snd (_glfwInitJoysticksLinux Sample.fresh_old))) /\
  (In (Close 5) (fd_calls (snd (_glfwInitJoysticksLinux Sample.fresh_old))) \/
   In (CloseFd 5)
      (_glfwTerminateJoysticksLinux (snd (_glfwInitJoysticksLinux Sample.fresh_old)))).
Proof.
  assert (Hop : In (Open "/dev/input/js0" 5)
                   (fd_calls (snd (_glfwInitJoysticksLinux Sample.fresh_old)))).
  { right. right. now left. }
  split; [discriminate|]. split; [exact Hop|].
  apply (proj1 (descriptors_closed_at_termination
                  (Sample.two_pads 0x000900 Sample.no_events [])
                  (Sample.two_pads 0x000900 Sample.no_events [])
                  "/dev/input/js0" 5 ltac:(discriminate)) Hop).
Defined.

Lemma readEvents_fd_calls jid queue g :
  fd_calls (snd (readEvents jid queue g)) = fd_calls g.
Proof.
  revert g. induction queue as [|[e|errno] queue IH]; intros g; simpl.
  - reflexivity.
  - rewrite IH. now destruct (handleEvent e (slot (js g) jid)).
  - now destruct (errno =? ENODEV).
Qed.

(** X4. The read loop of [pollJoystickEvents] opens and closes nothing:
    the descriptor calls of a poll are those of its hot-plug step. In
    particular the branch for [ENODEV] resets the slot without closing
    its descriptor. *)
Theorem pollJoystickEvents_closes_nothing (jid : nat) (g : _GLFWlibrary) :
  fd_calls (snd (pollJoystickEvents jid g)) = fd_calls (_glfwPollJoystickEvents g).
Proof.
  unfold pollJoystickEvents.
  destruct (negb (present (slot (js (_glfwPollJoystickEvents g)) jid)));
    [reflexivity|].
  pose proof (readEvents_fd_calls jid
                (os_events (os (_glfwPollJoystickEvents g))
                           (fd (slot (js (_glfwPollJoystickEvents g)) jid)))
                (_glfwPollJoystickEvents g)) as H.
  destruct (readEvents _ _ _) as [rest g2]. exact H.
Qed.

(** ** Slots and tables, continued *)

Lemma slot_present_lookup_any (tbl : list _GLFWjoystickLinux) (jid : nat) :
  (jid < length tbl)%nat -> tbl !! jid = Some (slot tbl jid).
Proof.
  intros Hlen. unfold slot.
  destruct (lookup_lt_is_Some_2 tbl jid Hlen) as [j ->]. reflexivity.
Qed.

(** ** Connecting and disconnecting *)

(** X5. A device is not opened twice: once [openJoystickDevice] has
    returned true for a path, a second call for the same path returns
    false and leaves the state, the log of [open] calls included, as it
    is. *)
Theorem openJoystickDevice_twice (p : string) (g g1 : _GLFWlibrary) :
  table_ok (js g) ->
  openJoystickDevice p g = (true, g1) ->
  openJoystickDevice p g1 = (false, g1).
Proof.
  intros Hok Hrun.
  destruct (openJoystickDevice_opened p g g1 Hok Hrun)
    as (jid & Hfree & _ & Hslot & _).
  apply free_jid_Some in Hfree as (Hr & _).
  unfold openJoystickDevice.
  replace (path_in_use (js g1) p) with true; [reflexivity|].
  symmetry. apply path_in_use_true. exists jid. rewrite Hslot. simpl.
  repeat split; auto. apply strcmp_refl.
Qed.

(** On the sample system js0 is opened once. *)
Lemma openJoystickDevice_twice_witness :
  table_ok (js Sample.fresh) /\
  openJoystickDevice "/dev/input/js0"
    (snd (openJoystickDevice "/dev/input/js0" Sample.fresh))
  = (false, snd (openJoystickDevice "/dev/input/js0" Sample.fresh)).
Proof.
  split; [reflexivity|].
  apply (openJoystickDevice_twice "/dev/input/js0" Sample.fresh _ eq_refl).
  reflexivity.
Defined.

Lemma slot_sound_free tbl jid :
  table_sound tbl -> present (slot tbl jid) = false -> slot tbl jid = js_zero.
Proof.
  intros Hs Hp.
  assert (H : slot_sound (slot tbl jid)).
  { apply (slot_Forall slot_sound); [reflexivity | exact Hs]. }
  unfold slot_sound in H. now rewrite Hp in H.
Qed.

(** X6. Connecting a device and losing it again gives the table back.
    On a table whose free slots are zero, when [openJoystickDevice] has
    put a device into slot [jid], and the next poll of that slot (under
    any operating system [o] without hot-plug events) finds [ENODEV] on
    the descriptor, the poll returns false, the table is the one before
    the device was opened, and the host has been told of the connection
    and then of the disconnection of [jid]. *)
Theorem connect_disconnect_round_trip
  (p : string) (g g1 : _GLFWlibrary) (jid : nat) (o : OS)
  (rest : list read_result) :
  table_ok (js g) -> table_sound (js g) ->
  openJoystickDevice p g = (true, g1) ->
  free_jid (js g) = Some jid ->
  os_inotify o = [] ->
  os_events o (os_open (os g) p) = ReadError ENODEV :: rest ->
  fst (pollJoystickEvents jid (set_os o g1)) = false /\
  js (snd (pollJoystickEvents jid (set_os o g1))) = js g /\
  joystick_changes (snd (pollJoystickEvents jid (set_os o g1)))
  = joystick_changes g ++ [(jid, GLFW_CONNECTED); (jid, GLFW_DISCONNECTED)].
Proof.
  intros Hok Hsound Hrun Hfree Hhot Hq.
  pose proof (openJoystickDevice_outcome p g) as Hout. rewrite Hrun in Hout.
  inversion Hout as [| | | |jid' d Hin Hfree' Hd Hne Hv]; subst.
  rewrite Hfree in Hfree'. injection Hfree' as <-.
  apply free_jid_Some in Hfree as (Hr & Hp & _).
  assert (Hlen : (jid < length (js g))%nat) by (rewrite Hok; lia).
  unfold pollJoystickEvents, _glfwPollJoystickEvents. simpl.
  rewrite Hhot. simpl.
  rewrite slot_insert_eq by assumption. simpl.
  rewrite Hq. simpl.
  rewrite list_insert_insert_eq.
  rewrite slot_insert_eq by assumption. simpl.
  rewrite <- app_assoc. simpl. repeat split.
  apply list_insert_id.
  rewrite <- (slot_sound_free _ _ Hsound Hp).
  now apply slot_present_lookup_any.
Qed.

(** On the sample system: js0 is connected and pulled again. *)
Lemma connect_disconnect_round_trip_witness :
  table_ok (js Sample.fresh) /\
  free_jid (js Sample.fresh) = Some 0%nat /\
  js (snd (pollJoystickEvents 0
             (set_os Sample2.js0_pulled
                (snd (openJoystickDevice "/dev/input/js0" Sample.fresh)))))
  = js Sample.fresh.
Proof.
  split; [reflexivity|]. split; [reflexivity|].
  apply (connect_disconnect_round_trip "/dev/input/js0" Sample.fresh
           (snd (openJoystickDevice "/dev/input/js0" Sample.fresh)) 0
           Sample2.js0_pulled []); try reflexivity.
  apply Forall_replicate. reflexivity.
Defined.

(** ** Sound slots *)

Lemma calloc_fits {A} (count : Z) (zero : A) :
  array_fits count (_glfw_calloc count zero).
Proof.
  unfold _glfw_calloc, array_fits.
  destruct (Z.ltb_spec count 0); [assumption|].
  split; [assumption | apply length_replicate].
Qed.

Lemma insert_fits {A} (count : Z) (l : list A) (i : nat) (v : A) :
  array_fits count (Some l) -> array_fits count (Some (<[i := v]> l)).
Proof.
  unfold array_fits. now rewrite length_insert.
Qed.

Lemma opened_slot_sound o p d : slot_sound (opened_slot o p d).
Proof.
  unfold slot_sound. simpl. repeat split; try discriminate; apply calloc_fits.
Qed.

Lemma handleEvent_sound e j j' :
  handleEvent e j = Some j' -> slot_sound j -> slot_sound j'.
Proof.
  intros He. unfold slot_sound.
  apply handleEvent_Some in He
    as [(_ & a & Ha' & _ & ->)|[(_ & b & Hb' & _ & ->)|(_ & _ & ->)]]; simpl; auto.
  - destruct (present j).
    + intros (Hn & Hp & Ha & Hb). rewrite Ha' in Ha.
      split; [|split; [|split]]; auto. now apply insert_fits.
    + intros ->. discriminate Ha'.
  - destruct (present j).
    + intros (Hn & Hp & Ha & Hb). rewrite Hb' in Hb.
      split; [|split; [|split]]; auto. now apply insert_fits.
    + intros ->. discriminate Hb'.
Qed.

Lemma exec_table_sound c g : table_sound (js g) -> table_sound (js (exec c g)).
Proof.
  apply exec_keeps; unfold table_sound.
  - intros tbl jid o p d H _ _. apply Forall_insert; [assumption|].
    apply opened_slot_sound.
  - intros tbl jid e j' He H. apply Forall_insert; [assumption|].
    apply (handleEvent_sound e (slot tbl jid)); [assumption|].
    apply (slot_Forall slot_sound); [reflexivity | assumption].
  - intros tbl jid H. apply Forall_insert; [assumption | reflexivity].
  - intros tbl tbl' Hp H. now rewrite <- Hp.
Qed.

Lemma reachable_table_sound g : reachable g -> table_sound (js g).
Proof.
  intros Hg. induction Hg as [o|c g Hg IH|o g Hg IH].
  - change (Forall slot_sound (replicate (S GLFW_JOYSTICK_LAST) js_zero)).
    apply Forall_replicate. reflexivity.
  - now apply exec_table_sound.
  - exact IH.
Qed.

Lemma reachable_slot_sound g jid : reachable g -> slot_sound (slot (js g) jid).
Proof.
  intros Hg. apply (slot_Forall slot_sound); [reflexivity|].
  now apply reachable_table_sound.
Qed.

(** X7. In every state the module reaches, a slot in use has a name and
    a path that are not NULL and arrays that fit its counts (as many
    elements as the count says, or NULL for a negative count), and a slot
    not in use is all zero. *)
Theorem reachable_slots_sound (g : _GLFWlibrary) (jid : nat) :
  reachable g ->
  (present (slot (js g) jid) = true ->
   name (slot (js g) jid) <> None /\
   path (slot (js g) jid) <> None /\
   array_fits (axisCount (slot (js g) jid)) (axes (slot (js g) jid)) /\
   array_fits (buttonCount (slot (js g) jid)) (buttons (slot (js g) jid))) /\
  (present (slot (js g) jid) = false -> slot (js g) jid = js_zero).
Proof.
  intros Hg. pose proof (reachable_slot_sound g jid Hg) as H.
  unfold slot_sound in H. split; intros Hp; now rewrite Hp in H.
Qed.

Lemma reachable_js0_pulled :
  reachable (snd (pollJoystickEvents 0 (set_os Sample2.js0_pulled Sample2.running))).
Proof.
  assert (Hrun : Sample2.running
                 = exec InitJoysticks (library_start (os Sample2.running))).
  { vm_compute. reflexivity. }
  apply (reach_call (PollSlot 0)). apply reach_os. rewrite Hrun.
  apply reach_call. apply reach_start.
Qed.

(** On the sample system, once js0 has been pulled and slot 0 polled,
    the slot is all zero. *)
Lemma reachable_slots_sound_witness :
  reachable (snd (pollJoystickEvents 0 (set_os Sample2.js0_pulled Sample2.running))) /\
  slot (js (snd (pollJoystickEvents 0 (set_os Sample2.js0_pulled Sample2.running)))) 0
  = js_zero.
Proof.
  split; [exact reachable_js0_pulled|].
  apply (proj2 (reachable_slots_sound _ 0%nat reachable_js0_pulled)). reflexivity.
Defined.

(** ** The platform API *)

Lemma pollJoystickEvents_returns_present jid g :
  fst (pollJoystickEvents jid g)
  = present (slot (js (snd (pollJoystickEvents jid g))) jid).
Proof.
  unfold pollJoystickEvents.
  destruct (present (slot (js (_glfwPollJoystickEvents g)) jid)) eqn:E; simpl.
  - now destruct (readEvents _ _ _).
  - now rewrite E.
Qed.

(** X8. [_glfwPlatformGetJoystickAxes] polls the slot. When the joystick
    is not present after the poll it returns NULL and leaves the count
    alone. Otherwise it hands back the axis count and the axis pointer of
    the slot; in every state the module reaches without a store outside an
    array, the array fits the count, and the pointer is NULL exactly when
    the count is negative. So the pointer the caller receives is NULL
    exactly when the joystick is not present or its count is negative. *)
Theorem _glfwPlatformGetJoystickAxes_result
  (jid : nat) (g g' : _GLFWlibrary) (r : option (Z * option (list float))) :
  reachable g ->
  _glfwPlatformGetJoystickAxes jid g = (r, g') ->
  faulted g' = false ->
  g' = snd (pollJoystickEvents jid g) /\
  (r = None <-> present (slot (js g') jid) = false) /\
  (forall count array,
     r = Some (count, array) ->
     count = axisCount (slot (js g') jid) /\
     array = axes (slot (js g') jid) /\
     array_fits count array /\
     (array = None <-> count < 0)) /\
  (r ≫= snd = None <->
   present (slot (js g') jid) = false \/ axisCount (slot (js g') jid) < 0).
Proof.
  intros Hg. unfold _glfwPlatformGetJoystickAxes.
  pose proof (pollJoystickEvents_returns_present jid g) as Hret.
  assert (Hreach : reachable (snd (pollJoystickEvents jid g)))
    by apply (reach_call (PollSlot jid) g Hg).
  destruct (pollJoystickEvents jid g) as [ok g1]. simpl in *.
  destruct ok; simpl; intros [= <- <-] _.
  - pose proof (reachable_slot_sound g1 jid Hreach) as Hs.
    unfold slot_sound in Hs. rewrite <- Hret in Hs. destruct Hs as (_ & _ & Hfit & _).
    assert (Hnull : axes (slot (js g1) jid) = None <-> axisCount (slot (js g1) jid) < 0).
    { unfold array_fits in Hfit. destruct (axes (slot (js g1) jid)).
      - split; [discriminate | lia].
      - tauto. }
    split; [reflexivity|]. split; [split; [discriminate | congruence]|]. split.
    + intros count array [= <- <-]. repeat split; auto; apply Hnull.
    + rewrite Hnull. split; [auto | intros [H|H]; [congruence | exact H]].
  - split; [reflexivity|]. split; [split; auto|]. split; [discriminate|].
    split; auto.
Qed.

(** On the sample system the two axes of js0 are returned. *)
Lemma _glfwPlatformGetJoystickAxes_result_witness :
  reachable Sample.plugged /\
  faulted (snd (_glfwPlatformGetJoystickAxes 0 Sample.plugged)) = false /\
  fst (_glfwPlatformGetJoystickAxes 0 Sample.plugged)
  = Some (axisCount (slot (js (snd (pollJoystickEvents 0 Sample.plugged))) 0),
          axes (slot (js (snd (pollJoystickEvents 0 Sample.plugged))) 0)) /\
  array_fits 2 (Some [float_zero; float_zero]).
Proof.
  split; [apply reach_start|]. split; [reflexivity|].
  destruct (_glfwPlatformGetJoystickAxes_result 0 Sample.plugged
              (snd (_glfwPlatformGetJoystickAxes 0 Sample.plugged))
              (Some (2, Some [float_zero; float_zero]))
              (reach_start _) eq_refl eq_refl) as (Hst & _ & H & _).
  destruct (H 2 (Some [float_zero; float_zero]) eq_refl) as (Hc & Ha & Hfit & _).
  rewrite Hst in Hc, Ha. split; [|exact Hfit].
  rewrite <- Hc, <- Ha. reflexivity.
Defined.

(** X9. [_glfwPlatformGetJoystickButtons] polls the slot. When the
    joystick is not present after the poll it returns NULL and leaves the
    count alone. Otherwise it hands back the button count and the button
    pointer of the slot; in every state the module reaches without a store
    outside an array, the array fits the count, the pointer is NULL
    exactly when the count is negative, and each element of the array is
    [GLFW_PRESS] or [GLFW_RELEASE]. So the pointer the caller receives is
    NULL exactly when the joystick is not present or its count is
    negative. *)
Theorem _glfwPlatformGetJoystickButtons_result
  (jid : nat) (g g' : _GLFWlibrary) (r : option (Z * option (list Z))) :
  reachable g ->
  _glfwPlatformGetJoystickButtons jid g = (r, g') ->
  faulted g' = false ->
  g' = snd (pollJoystickEvents jid g) /\
  (r = None <-> present (slot (js g') jid) = false) /\
  (forall count array,
     r = Some (count, array) ->
     count = buttonCount (slot (js g') jid) /\
     array = buttons (slot (js g') jid) /\
     array_fits count array /\
     (array = None <-> count < 0) /\
     forall l, array = Some l ->
               Forall (fun b => b = GLFW_PRESS \/ b = GLFW_RELEASE) l) /\
  (r ≫= snd = None <->
   present (slot (js g') jid) = false \/ buttonCount (slot (js g') jid) < 0).
Proof.
  intros Hg. unfold _glfwPlatformGetJoystickButtons.
  pose proof (pollJoystickEvents_returns_present jid g) as Hret.
  assert (Hreach : reachable (snd (pollJoystickEvents jid g)))
    by apply (reach_call (PollSlot jid) g Hg).
  destruct (pollJoystickEvents jid g) as [ok g1]. simpl in *.
  destruct ok; simpl; intros [= <- <-] _.
  - pose proof (reachable_slot_sound g1 jid Hreach) as Hs.
    unfold slot_sound in Hs. rewrite <- Hret in Hs. destruct Hs as (_ & _ & _ & Hfit).
    assert (Hnull : buttons (slot (js g1) jid) = None
                    <-> buttonCount (slot (js g1) jid) < 0).
    { unfold array_fits in Hfit. destruct (buttons (slot (js g1) jid)).
      - split; [discriminate | lia].
      - tauto. }
    split; [reflexivity|]. split; [split; [discriminate | congruence]|]. split.
    + intros count array [= <- <-]. repeat split; auto; try apply Hnull.
      intros l Hl.
      apply (slot_Forall slot_buttons_boolean (js g1) jid
               js_zero_buttons_boolean (reachable_buttons_boolean g1 Hreach) l Hl).
    + rewrite Hnull. split; [auto | intros [H|H]; [congruence | exact H]].
  - split; [reflexivity|]. split; [split; auto|]. split; [discriminate|].
    split; auto.
Qed.

(** On the sample system the three buttons of js0 are returned. *)
Lemma _glfwPlatformGetJoystickButtons_result_witness :
  reachable Sample.plugged /\
  faulted (snd (_glfwPlatformGetJoystickButtons 0 Sample.plugged)) = false /\
  fst (_glfwPlatformGetJoystickButtons 0 Sample.plugged)
  = Some (buttonCount (slot (js (snd (pollJoystickEvents 0 Sample.plugged))) 0),
          buttons (slot (js (snd (pollJoystickEvents 0 Sample.plugged))) 0)) /\
  array_fits 3 (Some [0; 0; 0]).
Proof.
  split; [apply reach_start|]. split; [reflexivity|].
  destruct (_glfwPlatformGetJoystickButtons_result 0 Sample.plugged
              (snd (_glfwPlatformGetJoystickButtons 0 Sample.plugged))
              (Some (3, Some [0; 0; 0]))
              (reach_start _) eq_refl eq_refl) as (Hst & _ & H & _).
  destruct (H 3 (Some [0; 0; 0]) eq_refl) as (Hc & Ha & Hfit & _).
  rewrite Hst in Hc, Ha. split; [|exact Hfit].
  rewrite <- Hc, <- Ha. reflexivity.
Defined.

(** X10. [_glfwPlatformGetJoystickName] returns NULL exactly when the
    joystick is not present after the poll: in every state the module
    reaches, the name of a joystick that is present is never NULL, and it
    is the name stored in the slot. *)
Theorem _glfwPlatformGetJoystickName_result
  (jid : nat) (g g' : _GLFWlibrary) (r : option string) :
  reachable g ->
  _glfwPlatformGetJoystickName jid g = (r, g') ->
  g' = snd (pollJoystickEvents jid g) /\
  (r = None <-> present (slot (js g') jid) = false) /\
  (present (slot (js g') jid) = true -> r = name (slot (js g') jid)).
Proof.
  intros Hg. unfold _glfwPlatformGetJoystickName.
  pose proof (pollJoystickEvents_returns_present jid g) as Hret.
  assert (Hreach : reachable (snd (pollJoystickEvents jid g)))
    by apply (reach_call (PollSlot jid) g Hg).
  destruct (pollJoystickEvents jid g) as [ok g1]. simpl in *.
  destruct ok; simpl; intros [= <- <-].
  - split; [reflexivity|].
    pose proof (reachable_slot_sound g1 jid Hreach) as Hs.
    unfold slot_sound in Hs. rewrite <- Hret in Hs. destruct Hs as (Hn & _).
    split; [split; [contradiction | congruence] | reflexivity].
  - split; [reflexivity|]. split; [split; auto | congruence].
Qed.

(** On the sample system js0 is called Zeta. *)
Lemma _glfwPlatformGetJoystickName_result_witness :
  reachable Sample.plugged /\
  fst (_glfwPlatformGetJoystickName 0 Sample.plugged) = Some "Zeta"%string.
Proof.
  split; [apply reach_start|].
  destruct (_glfwPlatformGetJoystickName_result 0 Sample.plugged
              (snd (_glfwPlatformGetJoystickName 0 Sample.plugged))
              (fst (_glfwPlatformGetJoystickName 0 Sample.plugged))
              (reach_start _) eq_refl) as (_ & _ & H).
  rewrite (H eq_refl). reflexivity.
Defined.

(** ** Failed initialisation *)

(** X11. When [_glfwInitJoysticksLinux] returns false it has opened no
    device: the table, the log of joystick changes and the log of
    descriptor calls are as before, and the error reported last is the one
    of the step that failed. *)
Theorem _glfwInitJoysticksLinux_failed (g : _GLFWlibrary) :
  fst (_glfwInitJoysticksLinux g) = false ->
  js (snd (_glfwInitJoysticksLinux g)) = js g /\
  joystick_changes (snd (_glfwInitJoysticksLinux g)) = joystick_changes g /\
  fd_calls (snd (_glfwInitJoysticksLinux g)) = fd_calls g /\
  last (input_errors (snd (_glfwInitJoysticksLinux g)))
  = Some (GLFW_PLATFORM_ERROR,
          if os_inotify_init1 (os g) =? -1
          then "Linux: Failed to initialize inotify: %s"%string
          else "Linux: Failed to compile regex"%string).
Proof.
  rewrite _glfwInitJoysticksLinux_unfold. cbv zeta.
  set (g0 := set_inotify (os_inotify_init1 (os g)) g).
  destruct (os_inotify_init1 (os g) =? -1); simpl.
  - intros _. repeat split. apply last_snoc.
  - destruct (os_regcomp (os g) =? 0); simpl; [discriminate|].
    intros _. unfold addWatch. destruct (watch _ =? -1); simpl;
      repeat split; apply last_snoc.
Qed.

(** When the pattern cannot be compiled nothing is opened. *)
Lemma _glfwInitJoysticksLinux_failed_witness :
  fst (_glfwInitJoysticksLinux Sample2.no_regex) = false /\
  fd_calls (snd (_glfwInitJoysticksLinux Sample2.no_regex)) = [] /\
  last (input_errors (snd (_glfwInitJoysticksLinux Sample2.no_regex)))
  = Some (GLFW_PLATFORM_ERROR, "Linux: Failed to compile regex"%string).
Proof.
  split; [reflexivity|].
  destruct (_glfwInitJoysticksLinux_failed Sample2.no_regex eq_refl)
    as (_ & _ & Hfd & Herr).
  split; [exact Hfd | exact Herr].
Defined.

(** ** Hot-plug *)

(** X12. The hot-plug reader only adds devices: it leaves every slot in
    use exactly as it is, and every joystick change it reports is a
    connection. *)
Theorem _glfwPollJoystickEvents_only_adds (g : _GLFWlibrary) :
  table_ok (js g) ->
  (forall k, present (slot (js g) k) = true ->
             slot (js (_glfwPollJoystickEvents g)) k = slot (js g) k) /\
  exists news,
    joystick_changes (_glfwPollJoystickEvents g) = joystick_changes g ++ news /\
    Forall (fun c => snd c = GLFW_CONNECTED) news.
Proof.
  intros Hok. unfold _glfwPollJoystickEvents.
  apply (hotplugEvents_adds (os_inotify (os g))
           (set_os (set_inotify_events [] (os g)) g) Hok).
Qed.

(** On the sample system, while js0 and js1 are connected, the
    appearance of js1 is reported again by inotify: slot 0 stays as it
    is. *)
Lemma _glfwPollJoystickEvents_only_adds_witness :
  table_ok (js Sample2.running) /\
  slot (js (_glfwPollJoystickEvents
              (set_os (Sample.two_pads 0x020100 Sample.no_events ["js1"%string])
                      Sample2.running))) 0
  = Sample2.pad 5 "Zeta" "/dev/input/js0".
Proof.
  split; [reflexivity|].
  apply (proj1 (_glfwPollJoystickEvents_only_adds
                  (set_os (Sample.two_pads 0x020100 Sample.no_events ["js1"%string])
                          Sample2.running) eq_refl) 0%nat).
  reflexivity.
Defined.

(** ** Event records *)

Lemma clear_init_lor (type : Z) :
  clear_init (Z.lor type JS_EVENT_INIT) = clear_init type.
Proof.
  unfold clear_init. f_equal.
  rewrite Z.land_lor_distr_l.
  change (Z.land JS_EVENT_INIT (Z.lnot JS_EVENT_INIT)) with 0.
  apply Z.lor_0_r.
Qed.

(** X13. The initial-state bit of an event makes no difference: an event
    whose type has [JS_EVENT_INIT] set is handled exactly like the same
    event without it. And an event that, the bit cleared, is neither an
    axis nor a button event leaves the slot as it is. *)
Theorem handleEvent_initial_state (value type number : Z) (j : _GLFWjoystickLinux) :
  handleEvent (mkEvent value (Z.lor type JS_EVENT_INIT) number) j
  = handleEvent (mkEvent value type number) j /\
  (clear_init type <> JS_EVENT_AXIS -> clear_init type <> JS_EVENT_BUTTON ->
   handleEvent (mkEvent value type number) j = Some j).
Proof.
  split.
  - unfold handleEvent. simpl. now rewrite clear_init_lor.
  - intros Ha Hb. unfold handleEvent. simpl.
    apply Z.eqb_neq in Ha, Hb. now rewrite Ha, Hb.
Qed.

(** A synthetic event of type [JS_EVENT_INIT] alone changes nothing. *)
Lemma handleEvent_initial_state_witness :
  clear_init JS_EVENT_INIT <> JS_EVENT_AXIS /\
  clear_init JS_EVENT_INIT <> JS_EVENT_BUTTON /\
  handleEvent (mkEvent 1 JS_EVENT_INIT 0) (Sample2.pad 5 "Zeta" "/dev/input/js0")
  = Some (Sample2.pad 5 "Zeta" "/dev/input/js0").
Proof.
  split; [discriminate|]. split; [discriminate|].
  apply (proj2 (handleEvent_initial_state 1 JS_EVENT_INIT 0 _)); discriminate.
Defined.

(** ** Device paths *)

Lemma substring_length_le (k : nat) (s : string) :
  (String.length (String.substring 0 k s) <= k)%nat.
Proof.
  revert s. induction k as [|k IH]; intros [|c s]; simpl; try lia.
  specialize (IH s). lia.
Qed.

Lemma substring_short (k : nat) (s : string) :
  (String.length s <= k)%nat -> String.substring 0 k s = s.
Proof.
  revert s. induction k as [|k IH]; intros [|c s]; simpl; intros H;
    try reflexivity; try lia.
  rewrite IH; [reflexivity | lia].
Qed.

(** X14. The path buffer holds 19 characters. The path built for a
    directory entry or an inotify event is never longer, always starts
    with [/dev/input/], and is the full path of the file when the name has
    at most 8 characters; a longer name is cut after its eighth
    character. *)
Theorem snprintf_path_bounds (name : string) :
  (String.length (snprintf_path name) <= 19)%nat /\
  snprintf_path name = ("/dev/input/" ++ String.substring 0 8 name)%string /\
  ((String.length name <= 8)%nat ->
   snprintf_path name = ("/dev/input/" ++ name)%string).
Proof.
  rewrite snprintf_path_truncates. repeat split.
  - pose proof (substring_length_le 8 name) as H.
    change (String.length ("/dev/input/" ++ String.substring 0 8 name)%string)
      with (11 + String.length (String.substring 0 8 name))%nat.
    lia.
  - intros H. now rewrite substring_short.
Qed.

(** js123456 fits. *)
Lemma snprintf_path_bounds_witness :
  (String.length "js123456" <= 8)%nat /\
  snprintf_path "js123456" = "/dev/input/js123456"%string.
Proof.
  split; [simpl; lia|].
  apply (proj2 (proj2 (snprintf_path_bounds "js123456"))). simpl. lia.
Defined.

(** ** The comparison function *)

(** X15. [compareJoysticks] is a comparison [qsort] can sort with:
    swapping the arguments negates the result, a slot compares equal to
    itself, the order is transitive, and two slots compare equal exactly
    when their paths are the same C string. *)
Theorem compareJoysticks_order (fj sj tj : _GLFWjoystickLinux) :
  compareJoysticks sj fj = - compareJoysticks fj sj /\
  compareJoysticks fj fj = 0 /\
  (compareJoysticks fj sj <= 0 -> compareJoysticks sj tj <= 0 ->
   compareJoysticks fj tj <= 0) /\
  (compareJoysticks fj sj = 0 <-> cstr (path_str fj) = cstr (path_str sj)).
Proof.
  unfold compareJoysticks. repeat split.
  - apply strcmp_antisym.
  - apply strcmp_refl.
  - apply strcmp_trans.
  - apply strcmp_zero_iff.
  - apply strcmp_zero_iff.
Qed.

(** js0 before js1 before js2. *)
Lemma compareJoysticks_order_witness :
  compareJoysticks (Sample2.pad 5 "a" "/dev/input/js0")
                   (Sample2.pad 6 "b" "/dev/input/js1") <= 0 /\
  compareJoysticks (Sample2.pad 6 "b" "/dev/input/js1")
                   (Sample2.pad 7 "c" "/dev/input/js2") <= 0 /\
  compareJoysticks (Sample2.pad 5 "a" "/dev/input/js0")
                   (Sample2.pad 7 "c" "/dev/input/js2") <= 0.
Proof.
  split; [discriminate|]. split; [discriminate|].
  apply (proj1 (proj2 (proj2 (compareJoysticks_order
                                (Sample2.pad 5 "a" "/dev/input/js0")
                                (Sample2.pad 6 "b" "/dev/input/js1")
                                (Sample2.pad 7 "c" "/dev/input/js2")))));
    discriminate.
Defined.

(** ** The notifications of the initialisation *)

Lemma connected_in_order_open p g g' opened n :
  connected_in_order n g ->
  openJoystickDevice p g = (opened, g') ->
  connected_in_order (if opened then S n else n) g'.
Proof.
  intros [Hpre Hlog] Hrun.
  split; [exact (openJoystickDevice_prefix_full p g g' opened n Hpre Hrun)|].
  pose proof (openJoystickDevice_outcome p g) as Hout. rewrite Hrun in Hout.
  inversion Hout as [| | | |jid d Hin Hfree Hd Hne Hv]; subst; simpl; auto.
  destruct Hpre as (Hok & Hlow & Hhigh).
  apply free_jid_Some in Hfree as (Hr & Hp & Hbelow).
  assert (jid = n) as ->.
  { destruct (Nat.lt_trichotomy jid n) as [H|[H|H]]; [|assumption|].
    - rewrite (Hlow jid H) in Hp. discriminate.
    - specialize (Hbelow n H). rewrite (Hhigh n (Nat.le_refl n)) in Hbelow.
      discriminate. }
  rewrite Hlog. unfold connections. rewrite seq_S, fmap_app. reflexivity.
Qed.

Lemma connected_in_order_scan entries count g :
  connected_in_order count g ->
  connected_in_order (fst (scanDirectory entries count g))
                     (snd (scanDirectory entries count g)).
Proof.
  revert count g. induction entries as [|n entries IH]; intros count g HP; simpl;
    [assumption|].
  destruct (regexec_js n); simpl; [|now apply IH].
  destruct (openJoystickDevice (snprintf_path n) g) as [opened g1] eqn:E.
  apply IH. exact (connected_in_order_open _ _ _ _ _ HP E).
Qed.

(** X16. From the state [glfwInit] hands over, the initialisation reports
    one connection for every device it puts into the table and nothing
    else, for the ids 0, 1, 2, ... in this order: the log of joystick
    changes is the list of [(k, GLFW_CONNECTED)] for [k] below the number
    of slots in use. *)
Theorem _glfwInitJoysticksLinux_reports (o : OS) :
  joystick_changes (snd (_glfwInitJoysticksLinux (library_start o)))
  = (fun k => (k, GLFW_CONNECTED))
      <$> seq 0 (length (populated
                           (js (snd (_glfwInitJoysticksLinux (library_start o)))))).
Proof.
  rewrite _glfwInitJoysticksLinux_unfold. cbv zeta.
  set (g0 := set_inotify (os_inotify_init1 (os (library_start o))) (library_start o)).
  assert (Hstart : connected_in_order 0 (addWatch g0)).
  { split; [rewrite js_addWatch; apply prefix_full_start|].
    unfold addWatch. now destruct (watch _ =? -1). }
  destruct (os_inotify_init1 (os (library_start o)) =? -1); [reflexivity|].
  destruct (os_regcomp (os (library_start o)) =? 0).
  2: { simpl. destruct Hstart as [_ ->]. rewrite js_addWatch. reflexivity. }
  assert (Hscan : connected_in_order (fst (scanDevices (addWatch g0)))
                                     (snd (scanDevices (addWatch g0)))).
  { unfold scanDevices. destruct (os_opendir _).
    - now apply connected_in_order_scan.
    - exact Hstart. }
  destruct Hscan as [Hpre Hlog]. simpl.
  destruct (_glfw_qsort_sorted _ _ Hpre) as [Htake _].
  rewrite Htake, Hlog, length_take.
  pose proof (prefix_full_bound _ _ Hpre) as Hn.
  assert (Hlen : length (_glfw_qsort (js (snd (scanDevices (addWatch g0))))
                                     (fst (scanDevices (addWatch g0))))
                 = S GLFW_JOYSTICK_LAST).
  { rewrite _glfw_qsort_Permutation. now destruct Hpre. }
  rewrite Hlen. unfold connections. do 2 f_equal. lia.
Qed.

(** ** Well-formed notifications *)

Lemma changes_ok_open p g : changes_ok g -> changes_ok (snd (openJoystickDevice p g)).
Proof.
  intros [Hok Hall].
  split; [exact (exec_table_ok (OpenJoystickDevice p) g Hok)|].
  destruct (openJoystickDevice_outcome p g)
    as [| | | |jid d Hin Hfree Hd Hne Hv]; simpl; try assumption.
  apply free_jid_Some in Hfree as (Hr & _).
  apply Forall_app. split; [assumption|].
  constructor; [|constructor]. split; [exact Hr | now left].
Qed.

Lemma changes_ok_frame g g' :
  js g' ≡ₚ js g -> joystick_changes g' = joystick_changes g ->
  fd_calls g' = fd_calls g -> changes_ok g -> changes_ok g'.
Proof.
  intros Hp Hlog _ [Hok Hall]. split.
  - eapply table_ok_perm; [symmetry; exact Hp | exact Hok].
  - now rewrite Hlog.
Qed.

Lemma changes_ok_readEvents jid queue g :
  (jid < length (js g))%nat -> changes_ok g ->
  changes_ok (snd (readEvents jid queue g)).
Proof.
  revert g. induction queue as [|[e|errno] queue IH]; intros g Hlen [Hok Hall];
    simpl.
  - now split.
  - apply IH; destruct (handleEvent e (slot (js g) jid)); simpl.
    + now rewrite length_insert.
    + assumption.
    + split; [now apply table_ok_insert | assumption].
    + now split.
  - destruct (errno =? ENODEV); [|now split].
    split; simpl; [now apply table_ok_insert|].
    apply Forall_app. split; [assumption|].
    constructor; [|constructor]. split; [|now right].
    simpl. unfold table_ok in Hok. lia.
Qed.

Lemma changes_ok_poll jid g : changes_ok g -> changes_ok (snd (pollJoystickEvents jid g)).
Proof.
  intros HK.
  pose proof (_glfwPollJoystickEvents_grows changes_ok changes_ok_open
                changes_ok_frame g HK) as H1.
  unfold pollJoystickEvents.
  destruct (present (slot (js (_glfwPollJoystickEvents g)) jid)) eqn:E; simpl;
    [|assumption].
  assert (Hlen : (jid < length (js (_glfwPollJoystickEvents g)))%nat).
  { apply slot_present_lookup in E. eapply lookup_lt_Some; eauto. }
  pose proof (changes_ok_readEvents jid
                (os_events (os (_glfwPollJoystickEvents g))
                           (fd (slot (js (_glfwPollJoystickEvents g)) jid)))
                _ Hlen H1) as H2.
  destruct (readEvents _ _ _) as [rest g2]. exact H2.
Qed.

Lemma changes_ok_exec c g : changes_ok g -> changes_ok (exec c g).
Proof.
  intros HK. destruct c as [| |jid|jid|jid|jid|p|jid]; simpl.
  - now apply (_glfwInitJoysticksLinux_grows changes_ok changes_ok_open
                 changes_ok_frame).
  - now apply (_glfwPollJoystickEvents_grows changes_ok changes_ok_open
                 changes_ok_frame).
  - now apply changes_ok_poll.
  - unfold _glfwPlatformGetJoystickAxes.
    pose proof (changes_ok_poll jid g HK).
    destruct (pollJoystickEvents jid g) as [[] g1]; assumption.
  - unfold _glfwPlatformGetJoystickButtons.
    pose proof (changes_ok_poll jid g HK).
    destruct (pollJoystickEvents jid g) as [[] g1]; assumption.
  - unfold _glfwPlatformGetJoystickName.
    pose proof (changes_ok_poll jid g HK).
    destruct (pollJoystickEvents jid g) as [[] g1]; assumption.
  - now apply changes_ok_open.
  - now apply changes_ok_poll.
Qed.

(** X17. Every joystick change the module ever reports is a connection
    or a disconnection of an id between [GLFW_JOYSTICK_1] and
    [GLFW_JOYSTICK_LAST]. *)
Theorem reachable_changes_ok (g : _GLFWlibrary) (jid : nat) (event : Z) :
  reachable g ->
  In (jid, event) (joystick_changes g) ->
  (GLFW_JOYSTICK_1 <= jid <= GLFW_JOYSTICK_LAST)%nat /\
  (event = GLFW_CONNECTED \/ event = GLFW_DISCONNECTED).
Proof.
  intros Hg.
  assert (HK : changes_ok g).
  { induction Hg as [o|c g Hg IH|o g Hg IH].
    - split; [reflexivity | constructor].
    - apply changes_ok_exec. apply IH.
    - apply (changes_ok_frame g); auto. }
  intros Hin. destruct HK as [_ Hall].
  apply list_elem_of_In in Hin.
  apply (proj1 (Forall_forall _ _) Hall) in Hin. destruct Hin as [Hj He].
  simpl in *. unfold GLFW_JOYSTICK_1. split; [lia | assumption].
Qed.

(** On the sample system: the disconnection of js0. *)
Lemma reachable_changes_ok_witness :
  In (0%nat, GLFW_DISCONNECTED)
     (joystick_changes
        (snd (pollJoystickEvents 0 (set_os Sample2.js0_pulled Sample2.running)))) /\
  (GLFW_JOYSTICK_1 <= 0 <= GLFW_JOYSTICK_LAST)%nat.
Proof.
  assert (Hin : In (0%nat, GLFW_DISCONNECTED)
                   (joystick_changes
                      (snd (pollJoystickEvents 0
                              (set_os Sample2.js0_pulled Sample2.running))))).
  { right. right. now left. }
  split; [exact Hin|].
  apply (reachable_changes_ok _ 0%nat GLFW_DISCONNECTED
           reachable_js0_pulled Hin).
Defined.

(** ** A full table *)

Lemma openJoystickDevice_full p g :
  (forall k, (k <= GLFW_JOYSTICK_LAST)%nat -> present (slot (js g) k) = true) ->
  openJoystickDevice p g = (false, g).
Proof.
  intros Hfull. apply free_jid_None in Hfull.
  unfold openJoystickDevice. rewrite Hfull. now destruct (path_in_use (js g) p).
Qed.

Lemma hotplugEvents_full events g :
  (forall k, (k <= GLFW_JOYSTICK_LAST)%nat -> present (slot (js g) k) = true) ->
  hotplugEvents events g = g.
Proof.
  intros Hfull. induction events as [|e events IH]; simpl; [reflexivity|].
  destruct (regexec_js (ie_name e)); [|exact IH].
  rewrite (openJoystickDevice_full _ g Hfull). exact IH.
Qed.

(** X18. A seventeenth joystick is ignored: when every slot is in use,
    the hot-plug reader consumes the inotify events without opening any
    device; the table, the log of joystick changes and the log of
    descriptor calls are as before. *)
Theorem _glfwPollJoystickEvents_full_table (g : _GLFWlibrary) :
  (forall k, (k <= GLFW_JOYSTICK_LAST)%nat -> present (slot (js g) k) = true) ->
  js (_glfwPollJoystickEvents g) = js g /\
  joystick_changes (_glfwPollJoystickEvents g) = joystick_changes g /\
  fd_calls (_glfwPollJoystickEvents g) = fd_calls g /\
  os_inotify (os (_glfwPollJoystickEvents g)) = [].
Proof.
  intros Hfull. unfold _glfwPollJoystickEvents.
  rewrite hotplugEvents_full; [now repeat split | exact Hfull].
Qed.

(** With sixteen joysticks connected the appearance of js0 changes
    nothing. *)
Lemma _glfwPollJoystickEvents_full_table_witness :
  js (_glfwPollJoystickEvents
        (set_os (Sample.two_pads 0x020100 Sample.no_events ["js0"%string])
                Sample.full))
  = js Sample.full.
Proof.
  apply (_glfwPollJoystickEvents_full_table
           (set_os (Sample.two_pads 0x020100 Sample.no_events ["js0"%string])
                   Sample.full)).
  intros k Hk. unfold GLFW_JOYSTICK_LAST in Hk.
  do 16 (destruct k as [|k]; [reflexivity|]). lia.
Defined.

(** ** Polling again *)



